(** * Ad Astra: the two-phase skin analysis, the chat history sanitizer and
    the offline analysis queue

  A shallow embedding of the parts of [server/src/index.ts],
  [services/geminiService.ts] and [App.tsx] that carry the analysis
  pipeline, with the properties of the specification stated over it.

  Conventions of the embedding.
  - A JavaScript string is a [string] of ASCII code units; [trim] strips
    the ASCII members of the JavaScript white-space set and [toUpperCase]
    maps [a-z] to [A-Z].
  - An array is a [list]; [push] appends at the end and [pop] removes the
    last element.
  - The [Map] behind [analysisCache] and the MongoDB collection of chat
    sessions (unique index on [userPhone]) are [gmap]s keyed by strings.
  - Every [await] on the outside world (the Gemini call, [fetch]) is an
    input of the handler: the outcome the environment produced.
  - [setTimeout]/[clearTimeout] act on an explicit timer table and the
    passage of time is an explicit event. *)

From stdpp Require Import gmap strings list pretty.
From Stdlib Require Import Ascii ZArith Lia.

(** ** JavaScript string and array primitives used by the sources *)
Module Js.

Definition nl : string := String "010"%char "".

(** [!!s] for a string: only the empty string is falsy. *)
Definition truthy (s : string) : bool := negb (bool_decide (s = "")).

(** [!!x] for a value that is a string or [undefined]. *)
Definition truthy_opt (o : option string) : bool :=
  match o with Some s => truthy s | None => false end.

Fixpoint trimStart (s : string) : string :=
  match s with
  | String a s' => if Ascii.is_space a then trimStart s' else s
  | EmptyString => EmptyString
  end.

Definition trimEnd (s : string) : string :=
  String.rev (trimStart (String.rev s)).

Definition trim (s : string) : string := trimEnd (trimStart s).

Definition upper_char (a : ascii) : ascii :=
  let n := nat_of_ascii a in
  if (97 <=? n)%nat && (n <=? 122)%nat then ascii_of_nat (n - 32) else a.

Fixpoint toUpperCase (s : string) : string :=
  match s with
  | String a s' => String (upper_char a) (toUpperCase s')
  | EmptyString => EmptyString
  end.

(** [s.startsWith(p)] *)
Definition startsWith (s p : string) : bool := String.prefix p s.

(** [s.substring(n)] *)
Fixpoint substring (n : nat) (s : string) : string :=
  match n, s with
  | S k, String _ s' => substring k s'
  | _, _ => s
  end.

(** [s.includes(p)] *)
Fixpoint includes (s p : string) : bool :=
  String.prefix p s ||
  match s with
  | String _ s' => includes s' p
  | EmptyString => false
  end.

(** [s.split(sep)] for a non-empty separator: the pieces between the
    leftmost non-overlapping occurrences of [sep]. [skip] counts the
    characters of a separator still to be passed over and [cur] holds the
    current piece, reversed. *)
Fixpoint split_go (sep s : string) (skip : nat) (cur : string) : list string :=
  match skip with
  | S k =>
      match s with
      | String _ s' => split_go sep s' k cur
      | EmptyString => [String.rev cur]
      end
  | O =>
      match s with
      | EmptyString => [String.rev cur]
      | String a s' =>
          if String.prefix sep s
          then String.rev cur :: split_go sep s' (String.length sep - 1) EmptyString
          else split_go sep s' 0 (String a cur)
      end
  end.

Fixpoint chars (s : string) : list string :=
  match s with
  | String a s' => String a EmptyString :: chars s'
  | EmptyString => []
  end.

Definition split (s sep : string) : list string :=
  match sep with
  | EmptyString => chars s
  | _ => split_go sep s 0 EmptyString
  end.

(** [xs.join(sep)] *)
Fixpoint join (sep : string) (xs : list string) : string :=
  match xs with
  | [] => ""
  | [x] => x
  | x :: rest => x +:+ sep +:+ join sep rest
  end.

(** [a.push(x)] and [a.pop()] on an array held as a list. *)
Definition push {A} (x : A) (a : list A) : list A := a ++ [x].
Definition pop {A} (a : list A) : list A := removelast a.

End Js.

(** ** What the AI proxy can observe of a model call, and [handleAIError] *)
Module Ai.

(** The fields of a thrown value that [handleAIError] inspects:
    [error.status], [error.error.code] and [error.message]. *)
Record AIError := mkAIError {
  status : option N;
  code : option N;
  message : option string
}.

(** [new Error(msg)] *)
Definition Error (msg : string) : AIError := mkAIError None None (Some msg).

(** The outcome of [await ai.models.generateContent(..)] or
    [await chat.sendMessage(..)]: the call throws, or it returns a
    response whose [.text] is a string or [undefined]. *)
Inductive ModelOutcome :=
| Throws (e : AIError)
| Returns (text : option string).

Definition isRateLimit (e : AIError) : bool :=
  bool_decide (status e = Some 429%N)
  || bool_decide (code e = Some 429%N)
  || match message e with
     | Some m => Js.truthy m && (Js.includes m "429" || Js.includes m "quota")
     | None => false
     end.

(** The status and the [message] of the JSON body [handleAIError] sends. *)
Definition handleAIError (e : AIError) : N * string :=
  if isRateLimit e
  then (429%N, "AI Service Busy: Rate limit reached. Please wait a moment and try again.")
  else (500%N,
        match message e with
        | Some m => if Js.truthy m then m else "Failed to process AI request."
        | None => "Failed to process AI request."
        end).

End Ai.

(** ** POST /api/ai/chat *)
Module Chat.
Import Js Ai.

Inductive Role := user | model.

Global Instance Role_eq_dec : EqDecision Role.
Proof. solve_decision. Defined.

Record IHistoryPart := { text : string }.
Record IHistory := { role : Role; parts : list IHistoryPart }.
(** A chat session document without its key: [userPhone] is the key of the
    collection below. *)
Record IChatSession := {
  language : string;
  history : list IHistory
}.

Definition userTurn (message : string) : IHistory :=
  {| role := user; parts := [ {| text := message |} ] |}.
Definition modelTurn (responseText : string) : IHistory :=
  {| role := model; parts := [ {| text := responseText |} ] |}.

(** Step 1: [h.parts.some(p => p.text && p.text.trim().length > 0)] *)
Definition hasText (h : IHistory) : bool :=
  existsb (fun p => truthy (text p) && (0 <? String.length (trim (text p)))%nat)
          (parts h).

Definition validHistory (stored : list IHistory) : list IHistory :=
  List.filter hasText stored.

(** Step 2: the copy into the SDK format. *)
Definition toSdk (h : IHistory) : IHistory :=
  {| role := role h; parts := map (fun p => {| text := text p |}) (parts h) |}.

(** Step 3: [if (cleanHistory.length > 0 && cleanHistory[0].role !== 'user')
    cleanHistory.shift()] *)
Definition dropLeadingModel (cleanHistory : list IHistory) : list IHistory :=
  match cleanHistory with
  | first :: rest =>
      if bool_decide (role first <> user) then rest else cleanHistory
  | [] => []
  end.

(** Step 4, the body of the [for] loop over [cleanHistory[1..]]:
    [prev] is the last element of [sanitizedHistory]; reading [prev.role]
    of a missing element raises a [TypeError]. *)
Fixpoint alternateLoop (rest sanitizedHistory : list IHistory)
  : AIError + list IHistory :=
  match rest with
  | [] => inr sanitizedHistory
  | current :: rest' =>
      match last sanitizedHistory with
      | None => inl (Error "Cannot read properties of undefined (reading 'role')")
      | Some prev =>
          if bool_decide (role current = role prev)
          then alternateLoop rest' (push current (pop sanitizedHistory))
          else alternateLoop rest' (push current sanitizedHistory)
      end
  end.

Definition alternate (cleanHistory : list IHistory) : AIError + list IHistory :=
  match cleanHistory with
  | first :: rest => alternateLoop rest (push first [])
  | [] => inr []
  end.

(** Step 5: drop a trailing user message. *)
Definition dropTrailingUser (cleanHistory : list IHistory) : list IHistory :=
  match last cleanHistory with
  | Some h => if bool_decide (role h = user) then pop cleanHistory else cleanHistory
  | None => cleanHistory
  end.

(** The whole "deep history sanitization" block: the [history] handed to
    [ai.chats.create]. *)
Definition sanitizeHistory (stored : list IHistory) : AIError + list IHistory :=
  match alternate (dropLeadingModel (map toSdk (validHistory stored))) with
  | inl e => inl e
  | inr sanitized => inr (dropTrailingUser sanitized)
  end.

(** The collection of chat sessions, keyed by [userPhone] (a unique index). *)
Abbreviation Db := (gmap string IChatSession).

Record Response := { httpStatus : N; body : string }.

Definition fail (e : AIError) : Response :=
  {| httpStatus := fst (handleAIError e); body := snd (handleAIError e) |}.

(** [findOne], then the reset by [findOneAndUpdate(.., {upsert, new})]
    when there is no session or the language changed. *)
Definition openSession (db : Db) (phone lang : string) : Db * IChatSession :=
  match db !! phone with
  | Some session =>
      if bool_decide (language session <> lang)
      then let s := {| language := lang; history := [] |} in
           (<[phone := s]> db, s)
      else (db, session)
  | None =>
      let s := {| language := lang; history := [] |} in
      (<[phone := s]> db, s)
  end.

Definition withHistory (s : IChatSession) (h : list IHistory) : IChatSession :=
  {| language := language s; history := h |}.

(** [session.save()] of the document of [phone]. *)
Definition save (db : Db) (phone : string) (s : IChatSession) : Db :=
  <[phone := s]> db.

(** What one request leaves behind: the collection, the response, and the
    history given to [ai.chats.create] when the handler got that far. *)
Record Outcome := {
  db' : Db;
  response : Response;
  sent : option (list IHistory)
}.

(** The handler. [reply] is the outcome of [await chat.sendMessage].
    The store itself does not fail: with [upsert] the session is always
    found, so the 500 of [if (!session)] is never sent. The body sent on
    success is the model text; stripping Markdown fences and [JSON.parse]
    only shape the response and are left out. *)
Definition chat (db : Db) (phone message lang : string) (reply : ModelOutcome)
  : Outcome :=
  let '(db1, session) := openSession db phone lang in
  match sanitizeHistory (history session) with
  | inl e => {| db' := db1; response := fail e; sent := None |}
  | inr cleanHistory =>
      (* session.history.push({role:'user',..}); await session.save() *)
      let session1 := withHistory session (push (userTurn message) (history session)) in
      let db2 := save db1 phone session1 in
      match reply with
      | Throws e =>
          {| db' := db2; response := fail e; sent := Some cleanHistory |}
      | Returns responseText =>
          if negb (truthy_opt responseText)
          then
            (* session.history.pop(); await session.save(); throw *)
            let session2 := withHistory session1 (pop (history session1)) in
            {| db' := save db2 phone session2;
               response := fail (Error "Chat service returned an empty response.");
               sent := Some cleanHistory |}
          else
            let t := default "" responseText in
            let session2 := withHistory session1 (push (modelTurn t) (history session1)) in
            {| db' := save db2 phone session2;
               response := {| httpStatus := 200; body := t |};
               sent := Some cleanHistory |}
      end
  end.

(** The stored history of a user, empty when there is no document. *)
Definition storedHistory (db : Db) (phone : string) : list IHistory :=
  match db !! phone with
  | Some s => history s
  | None => []
  end.

(** The shape the Gemini chat API requires of [history]. *)
Fixpoint alternates (h : list IHistory) : Prop :=
  match h with
  | a :: (b :: _) as t => role a <> role b /\ alternates t
  | _ => True
  end.

Definition startsWithUser (h : list IHistory) : Prop :=
  role <$> head h = Some user.
Definition endsWithModel (h : list IHistory) : Prop :=
  role <$> last h = Some model.

End Chat.

(** ** The skin analysis endpoints and [analysisCache] *)
Module Skin.
Import Js Ai.

Inductive Conclusion := MILD | SERIOUS.

Global Instance Conclusion_eq_dec : EqDecision Conclusion.
Proof. solve_decision. Defined.

(** [TriageResultData] of [types.ts]; the two optional members are [None]
    when the key is absent from the object. *)
Record TriageResultData := {
  conclusion : Conclusion;
  explanation : string;
  selfCareTips : option (list string);
  doctorSuggestion : option string
}.

(** The scratch object [result] that the [forEach] over the lines fills. *)
Record Parsed := {
  p_conclusion : option Conclusion;
  p_explanation : option string;
  p_selfCareTips : option (list string);
  p_doctorSuggestion : option string
}.

Definition emptyParsed : Parsed :=
  {| p_conclusion := None; p_explanation := None;
     p_selfCareTips := None; p_doctorSuggestion := None |}.

(** [mcqAnswers] of a request body: [None] when missing, otherwise its
    [Object.entries] in their order. *)
Abbreviation McqAnswers := (option (list (string * string))).

Definition singleImagePrompt : string :=
  "Analyze this image of a skin condition. Describe what you see in objective, clinical terms. Focus on color, texture, shape, and visible features. Do not diagnose or offer advice. Simply describe the visual information.".

(** *** POST /api/ai/get-skin-conclusion, as written in its handler *)

Definition conclusionAdditionalInfo (mcqAnswers : McqAnswers) : string :=
  match mcqAnswers with
  | Some entries =>
      if (0 <? length entries)%nat
      then "The user provided these answers:" +:+ nl +:+
           join nl (map (fun qa => "- " +:+ fst qa +:+ ": " +:+ snd qa) entries)
      else "The user did not provide any additional context."
  | None => "The user did not provide any additional context."
  end.

Definition conclusionPrompt (language imageDescription : string)
  (mcqAnswers : McqAnswers) : string :=
  "You are an AI health assistant providing a preliminary analysis. Your response MUST be ONLY four lines in the '"
  +:+ language +:+ "' language, using these exact labels:" +:+ nl +:+
  "CONCLUSION: [MILD or SERIOUS]" +:+ nl +:+
  "EXPLANATION: [Your analysis in one paragraph, based on the description and user answers.]" +:+ nl +:+
  "SELF_CARE_TIPS: [List of 2-3 simple, safe self-care tips, each starting with '* '. If SERIOUS, write NONE.]" +:+ nl +:+
  "DOCTOR_SUGGESTION: [The type of specialist to see (e.g., 'Dermatologist'). If MILD, write NONE.]" +:+ nl +:+
  nl +:+
  "**Provided Information:**" +:+ nl +:+
  "1. **Image Description:**" +:+ nl +:+ imageDescription +:+ nl +:+
  "2. **User's Answers:** " +:+ conclusionAdditionalInfo mcqAnswers.

Definition conclusionLine (result : Parsed) (line : string) : Parsed :=
  if startsWith line "CONCLUSION:" then
    let value := toUpperCase (trim (substring (String.length "CONCLUSION:") line)) in
    if bool_decide (value = "MILD") then
      {| p_conclusion := Some MILD; p_explanation := p_explanation result;
         p_selfCareTips := p_selfCareTips result;
         p_doctorSuggestion := p_doctorSuggestion result |}
    else if bool_decide (value = "SERIOUS") then
      {| p_conclusion := Some SERIOUS; p_explanation := p_explanation result;
         p_selfCareTips := p_selfCareTips result;
         p_doctorSuggestion := p_doctorSuggestion result |}
    else result
  else if startsWith line "EXPLANATION:" then
    {| p_conclusion := p_conclusion result;
       p_explanation := Some (trim (substring (String.length "EXPLANATION:") line));
       p_selfCareTips := p_selfCareTips result;
       p_doctorSuggestion := p_doctorSuggestion result |}
  else if startsWith line "SELF_CARE_TIPS:" then
    let tipsString := trim (substring (String.length "SELF_CARE_TIPS:") line) in
    if bool_decide (toUpperCase tipsString <> "NONE") && truthy tipsString then
      {| p_conclusion := p_conclusion result; p_explanation := p_explanation result;
         p_selfCareTips := Some (List.filter truthy (map trim (split tipsString "* ")));
         p_doctorSuggestion := p_doctorSuggestion result |}
    else result
  else if startsWith line "DOCTOR_SUGGESTION:" then
    let suggestion := trim (substring (String.length "DOCTOR_SUGGESTION:") line) in
    if bool_decide (toUpperCase suggestion <> "NONE") && truthy suggestion then
      {| p_conclusion := p_conclusion result; p_explanation := p_explanation result;
         p_selfCareTips := p_selfCareTips result;
         p_doctorSuggestion := Some suggestion |}
    else result
  else result.

(** From [responseText.trim().split('\n')] to the response body, or the
    error thrown when [conclusion] or [explanation] is missing. *)
Definition conclusionParse (responseText : string) : AIError + TriageResultData :=
  let lines := split (trim responseText) nl in
  let result := fold_left conclusionLine lines emptyParsed in
  match p_conclusion result, p_explanation result with
  | Some c, Some e =>
      if truthy e then
        inr {| conclusion := c; explanation := e;
               selfCareTips := Some (default [] (p_selfCareTips result));
               doctorSuggestion :=
                 Some (match p_doctorSuggestion result with
                       | Some d => if truthy d then d else ""
                       | None => ""
                       end) |}
      else inl (Error "Received an unparsable response from the AI.")
  | _, _ => inl (Error "Received an unparsable response from the AI.")
  end.

(** *** POST /api/ai/analyze-skin, as written in its handler *)

Definition analyzeSingleImagePrompt : string :=
  "Analyze this image of a skin condition. Describe what you see in objective, clinical terms. Focus on color, texture, shape, and visible features. Do not diagnose or offer advice. Simply describe the visual information.".

Definition analyzeAdditionalInfo (mcqAnswers : McqAnswers) : string :=
  match mcqAnswers with
  | Some entries =>
      if (0 <? length entries)%nat
      then "The user provided these answers:" +:+ nl +:+
           join nl (map (fun qa => "- " +:+ fst qa +:+ ": " +:+ snd qa) entries)
      else "The user did not provide any additional context."
  | None => "The user did not provide any additional context."
  end.

Definition analyzePrompt (language descriptionText : string)
  (mcqAnswers : McqAnswers) : string :=
  "You are an AI health assistant. Your response MUST be ONLY four lines in the '"
  +:+ language +:+ "' language, using these exact labels:" +:+ nl +:+
  "CONCLUSION: [MILD or SERIOUS]" +:+ nl +:+
  "EXPLANATION: [Your analysis in one paragraph.]" +:+ nl +:+
  "SELF_CARE_TIPS: [List of 2-3 simple tips, each starting with '* '. If SERIOUS, write NONE.]" +:+ nl +:+
  "DOCTOR_SUGGESTION: [Specialist to see. If MILD, write NONE.]" +:+ nl +:+
  nl +:+
  "**Provided Information:**" +:+ nl +:+
  "1. **Image Description:**" +:+ nl +:+ descriptionText +:+ nl +:+
  "2. **User's Answers:** " +:+ analyzeAdditionalInfo mcqAnswers.

Definition analyzeLine (result : Parsed) (line : string) : Parsed :=
  if startsWith line "CONCLUSION:" then
    let value := toUpperCase (trim (substring (String.length "CONCLUSION:") line)) in
    if bool_decide (value = "MILD") then
      {| p_conclusion := Some MILD; p_explanation := p_explanation result;
         p_selfCareTips := p_selfCareTips result;
         p_doctorSuggestion := p_doctorSuggestion result |}
    else if bool_decide (value = "SERIOUS") then
      {| p_conclusion := Some SERIOUS; p_explanation := p_explanation result;
         p_selfCareTips := p_selfCareTips result;
         p_doctorSuggestion := p_doctorSuggestion result |}
    else result
  else if startsWith line "EXPLANATION:" then
    {| p_conclusion := p_conclusion result;
       p_explanation := Some (trim (substring (String.length "EXPLANATION:") line));
       p_selfCareTips := p_selfCareTips result;
       p_doctorSuggestion := p_doctorSuggestion result |}
  else if startsWith line "SELF_CARE_TIPS:" then
    let tipsString := trim (substring (String.length "SELF_CARE_TIPS:") line) in
    if bool_decide (toUpperCase tipsString <> "NONE") && truthy tipsString then
      {| p_conclusion := p_conclusion result; p_explanation := p_explanation result;
         p_selfCareTips := Some (List.filter truthy (map trim (split tipsString "* ")));
         p_doctorSuggestion := p_doctorSuggestion result |}
    else result
  else if startsWith line "DOCTOR_SUGGESTION:" then
    let suggestion := trim (substring (String.length "DOCTOR_SUGGESTION:") line) in
    if bool_decide (toUpperCase suggestion <> "NONE") && truthy suggestion then
      {| p_conclusion := p_conclusion result; p_explanation := p_explanation result;
         p_selfCareTips := p_selfCareTips result;
         p_doctorSuggestion := Some suggestion |}
    else result
  else result.

Definition analyzeParse (responseText : string) : AIError + TriageResultData :=
  let lines := split (trim responseText) nl in
  let result := fold_left analyzeLine lines emptyParsed in
  match p_conclusion result, p_explanation result with
  | Some c, Some e =>
      if truthy e then
        inr {| conclusion := c; explanation := e;
               selfCareTips := Some (default [] (p_selfCareTips result));
               doctorSuggestion :=
                 Some (match p_doctorSuggestion result with
                       | Some d => if truthy d then d else ""
                       | None => ""
                       end) |}
      else inl (Error "Received an unparsable AI response.")
  | _, _ => inl (Error "Received an unparsable AI response.")
  end.

(** *** Responses *)

Inductive Body :=
| Message (message : string)
| AnalysisId (analysisId : string)
| Triage (result : TriageResultData).

Record Response := { httpStatus : N; body : Body }.

Definition ok (b : Body) : Response := {| httpStatus := 200; body := b |}.

Definition fail (e : AIError) : Response :=
  {| httpStatus := fst (handleAIError e); body := Message (snd (handleAIError e)) |}.

Definition invalidImage : Response :=
  {| httpStatus := 400; body := Message "Invalid image data provided." |}.

Definition sessionNotFound : Response :=
  {| httpStatus := 404;
     body := Message "Analysis session not found or expired. Please start over." |}.

(** *** The server state: [analysisCache] and the pending timers *)

Record CacheEntry := { description : string; cleanupTimer : nat }.

(** A pending [setTimeout]: when it is due, and the [analysisId] its
    callback deletes from [analysisCache]. *)
Record Timer := { due : N; target : string }.

Record Server := {
  analysisCache : gmap string CacheEntry;
  timers : gmap nat Timer;
  nextTimer : nat;
  now : N
}.

Definition init : Server :=
  {| analysisCache := ∅; timers := ∅; nextTimer := 0; now := 0 |}.

(** 15 * 60 * 1000 *)
Definition expiry : N := 15 * 60 * 1000.

(** [setTimeout(() => analysisCache.delete(analysisId), 15 * 60 * 1000)]
    followed by [analysisCache.set(analysisId, {description, cleanupTimer})]. *)
Definition cacheDescription (st : Server) (analysisId descriptionText : string) : Server :=
  let cleanupTimer := nextTimer st in
  {| analysisCache :=
       <[analysisId := {| description := descriptionText; cleanupTimer := cleanupTimer |}]>
         (analysisCache st);
     timers := <[cleanupTimer := {| due := now st + expiry; target := analysisId |}]> (timers st);
     nextTimer := S cleanupTimer;
     now := now st |}.

Definition clearTimeout (st : Server) (h : nat) : Server :=
  {| analysisCache := analysisCache st; timers := delete h (timers st);
     nextTimer := nextTimer st; now := now st |}.

Definition cacheDelete (st : Server) (analysisId : string) : Server :=
  {| analysisCache := delete analysisId (analysisCache st); timers := timers st;
     nextTimer := nextTimer st; now := now st |}.

(** The handler of POST /api/ai/describe-skin-image. [reply] is the outcome
    of the model call and [uuid] what [crypto.randomUUID()] returns. *)
Definition describeSkinImage (st : Server) (base64ImageData mimeType : option string)
  (reply : ModelOutcome) (uuid : string) : Server * Response :=
  if negb (truthy_opt base64ImageData) || negb (truthy_opt mimeType)
  then (st, invalidImage)
  else
    match reply with
    | Throws e => (st, fail e)
    | Returns descriptionText =>
        if negb (truthy_opt descriptionText)
        then (st, fail (Error "The AI could not analyze the provided image."))
        else (cacheDescription st uuid (default "" descriptionText),
              ok (AnalysisId uuid))
    end.

(** POST /api/ai/get-skin-conclusion up to its [await]: the lookup, the
    [clearTimeout] and the prompt. *)
Inductive Lookup :=
| Miss (r : Response)
| Hit (analysisPrompt : string).

Definition conclusionLookup (st : Server) (analysisId : string)
  (mcqAnswers : McqAnswers) (language : string) : Server * Lookup :=
  match analysisCache st !! analysisId with
  | None => (st, Miss sessionNotFound)
  | Some cached =>
      (clearTimeout st (cleanupTimer cached),
       Hit (conclusionPrompt language (description cached) mcqAnswers))
  end.

(** ... and after the [await]: parsing, [analysisCache.delete] on success. *)
Definition conclusionFinish (st : Server) (analysisId : string)
  (reply : ModelOutcome) : Server * Response :=
  match reply with
  | Throws e => (st, fail e)
  | Returns responseText =>
      if negb (truthy_opt responseText)
      then (st, fail (Error "AI model returned an empty response during the final analysis."))
      else
        match conclusionParse (default "" responseText) with
        | inl e => (st, fail e)
        | inr result => (cacheDelete st analysisId, ok (Triage result))
        end
  end.

(** One whole request, nothing else running between its two halves. *)
Definition getSkinConclusion (st : Server) (analysisId : string)
  (mcqAnswers : McqAnswers) (language : string) (reply : ModelOutcome)
  : Server * Response :=
  match conclusionLookup st analysisId mcqAnswers language with
  | (st1, Miss r) => (st1, r)
  | (st1, Hit _) => conclusionFinish st1 analysisId reply
  end.

(** The handler of POST /api/ai/analyze-skin; it does not touch the cache.
    [described] and [analysed] are the outcomes of its two model calls. *)
Definition analyzeSkin (base64ImageData mimeType : option string) (language : string)
  (mcqAnswers : McqAnswers) (described analysed : ModelOutcome) : Response :=
  if negb (truthy_opt base64ImageData) || negb (truthy_opt mimeType)
  then invalidImage
  else
    match described with
    | Throws e => fail e
    | Returns descriptionText =>
        if negb (truthy_opt descriptionText)
        then fail (Error "The AI could not analyze the provided image.")
        else
          match analysed with
          | Throws e => fail e
          | Returns responseText =>
              if negb (truthy_opt responseText)
              then fail (Error "AI model returned an empty response.")
              else
                match analyzeParse (default "" responseText) with
                | inl e => fail e
                | inr result => ok (Triage result)
                end
          end
    end.

(** [response.ok] as [apiFetch] tests it. *)
Definition responseOk (r : Response) : bool :=
  (200 <=? httpStatus r)%N && (httpStatus r <=? 299)%N.

(** The online path of [SkinDetector.handleSubmitAnalysis]:
    [startSkinAnalysis], then, unless [apiFetch] rejected,
    [getSkinAnalysisConclusion] on the [analysisId] of the reply. *)
Definition twoPhase (st : Server) (base64ImageData mimeType : option string)
  (language : string) (mcqAnswers : McqAnswers) (described analysed : ModelOutcome)
  (uuid : string) : Server * Response :=
  let '(st1, r) := describeSkinImage st base64ImageData mimeType described uuid in
  match body r with
  | AnalysisId analysisId =>
      if responseOk r
      then getSkinConclusion st1 analysisId mcqAnswers language analysed
      else (st1, r)
  | _ => (st1, r)
  end.

(** *** Time and traces *)

Definition isDue (t : N) (ht : nat * Timer) : Prop := (due ht.2 <= t)%N.

Global Instance isDue_dec t ht : Decision (isDue t ht).
Proof. unfold isDue. apply _. Defined.

(** [dt] milliseconds pass: every timer due by then runs its callback,
    [analysisCache.delete(target)], and leaves the timer table. Callbacks
    run as soon as they are due; they only delete, so their order does not
    matter. *)
Definition elapse (st : Server) (dt : N) : Server :=
  let t := (now st + dt)%N in
  let fired := map_to_list (filter (isDue t) (timers st)) in
  {| analysisCache := foldr (fun ht c => delete (target ht.2) c) (analysisCache st) fired;
     timers := filter (fun ht => ¬ isDue t ht) (timers st);
     nextTimer := nextTimer st;
     now := t |}.

(** What happens at the server, one atomic piece at a time: a handler runs
    without interruption up to its [await] and again after it. A trace may
    hold a [ConclusionFinish] without the lookup that precedes it in a real
    run; this only adds behaviours to those quantified over. *)
Inductive Event :=
| Describe (base64ImageData mimeType : option string) (reply : ModelOutcome) (uuid : string)
| ConclusionLookup (analysisId : string) (mcqAnswers : McqAnswers) (language : string)
| ConclusionFinish (analysisId : string) (reply : ModelOutcome)
| Elapse (dt : N).

Definition step (st : Server) (ev : Event) : Server :=
  match ev with
  | Describe b m reply uuid => (describeSkinImage st b m reply uuid).1
  | ConclusionLookup analysisId mcq language => (conclusionLookup st analysisId mcq language).1
  | ConclusionFinish analysisId reply => (conclusionFinish st analysisId reply).1
  | Elapse dt => elapse st dt
  end.

Definition run (st : Server) (evs : list Event) : Server := fold_left step evs st.

(** The reply text of a conclusion call yields a [TriageResultData]. *)
Definition parses (responseText : string) : bool :=
  match conclusionParse responseText with
  | inr _ => true
  | inl _ => false
  end.

(** The event stores a session under [analysisId]. *)
Definition issues (analysisId : string) (ev : Event) : Prop :=
  match ev with
  | Describe _ _ _ uuid => uuid = analysisId
  | _ => False
  end.

(** The event is the successful end of a conclusion call on [analysisId]. *)
Definition concludes (analysisId : string) (ev : Event) : Prop :=
  match ev with
  | ConclusionFinish id (Returns (Some responseText)) =>
      id = analysisId /\ parses responseText = true
  | _ => False
  end.

(** A conclusion call that found its session fails: the model call throws,
    returns no text, or returns text that does not parse. *)
Definition failing (reply : ModelOutcome) : Prop :=
  match reply with
  | Throws _ => True
  | Returns None => True
  | Returns (Some responseText) =>
      responseText = "" \/ parses responseText = false
  end.

(** Each pending timer that targets a cached session is that session's
    [cleanupTimer], and handles are allocated below [nextTimer]. *)
Definition wf (st : Server) : Prop :=
  (forall h t e, timers st !! h = Some t ->
     analysisCache st !! target t = Some e -> cleanupTimer e = h) /\
  (forall h, is_Some (timers st !! h) -> (h < nextTimer st)%nat).

(** [uuid] names no session and no pending timer of [st]. *)
Definition fresh (st : Server) (uuid : string) : Prop :=
  analysisCache st !! uuid = None /\
  forall h t, timers st !! h = Some t -> target t <> uuid.

(** Every [Describe] of the trace draws a fresh [uuid]. *)
Fixpoint freshTrace (st : Server) (evs : list Event) : Prop :=
  match evs with
  | [] => True
  | ev :: rest =>
      match ev with
      | Describe _ _ _ uuid => fresh st uuid
      | _ => True
      end /\ freshTrace (step st ev) rest
  end.

(** The session under [analysisId] is [cached] and no pending timer
    targets it. *)
Definition untimed (analysisId : string) (cached : CacheEntry) (st : Server) : Prop :=
  analysisCache st !! analysisId = Some cached /\
  forall (h : nat) (t : Timer), timers st !! h = Some t -> target t <> analysisId.

End Skin.

(** ** The offline queue of the client: [geminiService.ts] and [App.tsx] *)
Module Queue.
Import Js.

Record Payload := {
  base64ImageData : string;
  mimeType : string;
  language : string;
  mcqAnswers : Skin.McqAnswers
}.

Record QueuedAnalysisRequest := {
  id : string;
  payload : Payload;
  timestamp : N
}.

(** The [localStorage] keys the queue code and [handleLogout] touch; a key
    that is not set is [None]. [JSON.stringify]/[JSON.parse] of these plain
    collections is the identity. *)
Record LocalStorage := {
  healthAppUser : option string;
  healthAppToken : option string;
  bookingHistoryCache : option string;
  analysisQueue : option (list QueuedAnalysisRequest);
  analysisResults : option (list Skin.TriageResultData)
}.

(** [JSON.parse(localStorage.getItem(KEY) || '[]')] *)
Definition loadQueue (ls : LocalStorage) : list QueuedAnalysisRequest :=
  default [] (analysisQueue ls).
Definition loadResults (ls : LocalStorage) : list Skin.TriageResultData :=
  default [] (analysisResults ls).

Definition setQueue (ls : LocalStorage) (q : list QueuedAnalysisRequest) : LocalStorage :=
  {| healthAppUser := healthAppUser ls; healthAppToken := healthAppToken ls;
     bookingHistoryCache := bookingHistoryCache ls;
     analysisQueue := Some q; analysisResults := analysisResults ls |}.

Definition setResults (ls : LocalStorage) (r : list Skin.TriageResultData) : LocalStorage :=
  {| healthAppUser := healthAppUser ls; healthAppToken := healthAppToken ls;
     bookingHistoryCache := bookingHistoryCache ls;
     analysisQueue := analysisQueue ls; analysisResults := Some r |}.

(** [`req_${Date.now()}`] *)
Definition requestId (dateNow : N) : string := "req_" +:+ pretty dateNow.

(** [queueAnalysisRequest]; [idNow] and [stampNow] are what its two calls of
    [Date.now()] return. *)
Definition queueAnalysisRequest (ls : LocalStorage) (p : Payload) (idNow stampNow : N)
  : LocalStorage :=
  let queue := loadQueue ls in
  let newRequest := {| id := requestId idNow; payload := p; timestamp := stampNow |} in
  setQueue ls (push newRequest queue).

(** The outcome of [await apiFetch('/api/ai/analyze-skin', ..)]. *)
Inductive FetchOutcome :=
| Resolved (result : Skin.TriageResultData)
| Rejected (message : string).

(** What the [for .. of] loop carries: the variable [queue], the array
    [results], and the payloads posted so far. *)
Record Pass := {
  queue : list QueuedAnalysisRequest;
  results : list Skin.TriageResultData;
  posted : list Payload
}.

(** The loop runs over the array read at the start, whatever [queue] is
    reassigned to; [fetch i] is the outcome of the [i]-th call of the pass. *)
Fixpoint replay (requests : list QueuedAnalysisRequest) (i : nat)
  (fetch : nat -> FetchOutcome) (st : Pass) : Pass :=
  match requests with
  | [] => st
  | request :: rest =>
      let posted' := push (payload request) (posted st) in
      match fetch i with
      | Resolved result =>
          replay rest (S i) fetch
            {| queue := List.filter (fun r => bool_decide (id r <> id request)) (queue st);
               results := push result (results st);
               posted := posted' |}
      | Rejected _ =>
          replay rest (S i) fetch
            {| queue := queue st; results := results st; posted := posted' |}
      end
  end.

(** What a run of [processAnalysisQueue] leaves: the storage, the payloads
    posted in order, and whether ['queueProcessed'] was dispatched. *)
Record Processed := {
  storage : LocalStorage;
  calls : list Payload;
  notified : bool
}.

Definition processAnalysisQueue (ls : LocalStorage) (fetch : nat -> FetchOutcome)
  : Processed :=
  let queue0 := loadQueue ls in
  if (List.length queue0 =? 0)%nat
  then {| storage := ls; calls := []; notified := false |}
  else
    let results0 := loadResults ls in
    let final := replay queue0 0 fetch
                   {| queue := queue0; results := results0; posted := [] |} in
    {| storage := setQueue (setResults ls (results final)) (queue final);
       calls := posted final;
       notified := true |}.

(** [handleLogout] of [App.tsx], on the storage. *)
Definition handleLogout (ls : LocalStorage) : LocalStorage :=
  {| healthAppUser := None; healthAppToken := None; bookingHistoryCache := None;
     analysisQueue := None; analysisResults := None |}.

Definition emptyStorage : LocalStorage :=
  {| healthAppUser := None; healthAppToken := None; bookingHistoryCache := None;
     analysisQueue := None; analysisResults := None |}.

(** The outcomes of the calls of a pass, by position in the queue. *)
Definition succeeded (fetch : nat -> FetchOutcome) (i : nat) : bool :=
  match fetch i with Resolved _ => true | Rejected _ => false end.

Definition resultOf (fetch : nat -> FetchOutcome) (i : nat)
  : option Skin.TriageResultData :=
  match fetch i with Resolved r => Some r | Rejected _ => None end.

(** The ids, and the results, of the requests of a pass whose call
    resolved, and the requests whose call was rejected, all in order. *)
Fixpoint resolvedIds (requests : list QueuedAnalysisRequest) (i : nat)
  (fetch : nat -> FetchOutcome) : list string :=
  match requests with
  | [] => []
  | r :: rest =>
      if succeeded fetch i then id r :: resolvedIds rest (S i) fetch
      else resolvedIds rest (S i) fetch
  end.

Fixpoint resolvedResults (requests : list QueuedAnalysisRequest) (i : nat)
  (fetch : nat -> FetchOutcome) : list Skin.TriageResultData :=
  match requests with
  | [] => []
  | r :: rest =>
      match fetch i with
      | Resolved result => result :: resolvedResults rest (S i) fetch
      | Rejected _ => resolvedResults rest (S i) fetch
      end
  end.

Fixpoint rejectedRequests (requests : list QueuedAnalysisRequest) (i : nat)
  (fetch : nat -> FetchOutcome) : list QueuedAnalysisRequest :=
  match requests with
  | [] => []
  | r :: rest =>
      if succeeded fetch i then rejectedRequests rest (S i) fetch
      else r :: rejectedRequests rest (S i) fetch
  end.

End Queue.

(** ** The inputs of the scenarios evaluated below *)
Module Scenario.
Import Js Ai.

(** The model reply of the end-to-end scenario of the specification. *)
Definition mildReply : string :=
  "CONCLUSION: MILD" +:+ nl +:+
  "EXPLANATION: ..." +:+ nl +:+
  "SELF_CARE_TIPS: * Rest" +:+ nl +:+
  "* Hydrate" +:+ nl +:+
  "DOCTOR_SUGGESTION: NONE".

(** The server after phase 1 returned the description of the scenario. *)
Definition described : Skin.Server :=
  (Skin.describeSkinImage Skin.init (Some "aGVsbG8=") (Some "image/png")
     (Returns (Some "redness, no swelling")) "6f1c2d3e").1.

(** Phase 1, a conclusion call one minute later that finds the session and
    gets no text from the model, then fifteen more minutes. *)
Definition failedAttempt : list Skin.Event :=
  [ Skin.Describe (Some "aGVsbG8=") (Some "image/png")
      (Returns (Some "redness, no swelling")) "6f1c2d3e";
    Skin.Elapse 60000;
    Skin.ConclusionLookup "6f1c2d3e" (Some []) "en";
    Skin.ConclusionFinish "6f1c2d3e" (Returns None);
    Skin.Elapse Skin.expiry ].

Definition payloadOf (image : string) : Queue.Payload :=
  {| Queue.base64ImageData := image; Queue.mimeType := "image/png";
     Queue.language := "en"; Queue.mcqAnswers := Some [] |}.

(** [A] and [B] are enqueued within the same millisecond, [C] later. *)
Definition enqueuedABC : Queue.LocalStorage :=
  Queue.queueAnalysisRequest
    (Queue.queueAnalysisRequest
       (Queue.queueAnalysisRequest Queue.emptyStorage
          (payloadOf "QQ==") 1700000000000 1700000000000)
       (payloadOf "Qg==") 1700000000000 1700000000000)
    (payloadOf "Qw==") 1700000000500 1700000000500.

Definition mildResult : Skin.TriageResultData :=
  {| Skin.conclusion := Skin.MILD; Skin.explanation := "...";
     Skin.selfCareTips := Some ["Rest"]; Skin.doctorSuggestion := Some "" |}.

(** The call for [B] is rejected, those for [A] and [C] resolve. *)
Definition onlyBFails (i : nat) : Queue.FetchOutcome :=
  match i with
  | 1%nat => Queue.Rejected "Unable to connect to the server. Please check your internet connection and try again."
  | _ => Queue.Resolved mildResult
  end.

End Scenario.


(** ** Conversations: answered chat turns in sequence *)
Module Conversation.
Import Js Ai Chat.

(** The test of step 1 of the sanitizer on one text. *)
Definition nonBlank (s : string) : bool :=
  truthy s && (0 <? String.length (trim s))%nat.

(** A stored history the Gemini chat API accepts as it is: every message
    has text, roles alternate, and it is empty or runs from a user message
    to a model message. *)
Definition wellFormed (h : list IHistory) : Prop :=
  Forall (fun m => hasText m = true) h /\
  alternates h /\
  (h = [] \/ (startsWithUser h /\ endsWithModel h)).

(** POST /api/ai/chat once per turn of [turns], each answered by the model
    with the text paired with the message. *)
Fixpoint converse (db : Db) (phone lang : string) (turns : list (string * string)) : Db :=
  match turns with
  | [] => db
  | (message, reply) :: rest =>
      converse (db' (chat db phone message lang (Returns (Some reply)))) phone lang rest
  end.

Definition transcript (turns : list (string * string)) : list IHistory :=
  flat_map (fun turn => [userTurn turn.1; modelTurn turn.2]) turns.

(** POST /api/ai/chat once per element of [attempts], the model call
    throwing each time. *)
Fixpoint failedSends (db : Db) (phone lang : string) (attempts : list (string * AIError))
  : Db :=
  match attempts with
  | [] => db
  | (message, e) :: rest =>
      failedSends (db' (chat db phone message lang (Throws e))) phone lang rest
  end.

End Conversation.

(** ** Notions used to state facts about the skin analysis endpoints *)
Module SkinFacts.
Import Js Ai Skin.

(** What the parsing loop keeps true of its scratch object: no stored tip
    is empty and a stored suggestion is not the word NONE. *)
Definition parsedShape (result : Parsed) : Prop :=
  (forall tips, p_selfCareTips result = Some tips -> Forall (fun t => t <> "") tips) /\
  (forall d, p_doctorSuggestion result = Some d -> toUpperCase d <> "NONE").

(** The time that passes in a trace. *)
Definition elapsed (evs : list Event) : N :=
  fold_right (fun ev t => match ev with Elapse dt => (dt + t)%N | _ => t end) 0%N evs.

(** The event belongs to a conclusion call on [analysisId]. *)
Definition touches (analysisId : string) (ev : Event) : Prop :=
  match ev with
  | ConclusionLookup id _ _ => id = analysisId
  | ConclusionFinish id _ => id = analysisId
  | _ => False
  end.

(** The timer handle of every cached session was allocated. *)
Definition handlesAllocated (st : Server) : Prop :=
  forall id e, analysisCache st !! id = Some e -> (cleanupTimer e < nextTimer st)%nat.

(** The session stored under [uuid] with timer [h], due at [d], is either
    still cached with its timer pending, before [d], or gone with its timer,
    from [d] on; no other session holds [h] and no other timer targets
    [uuid]. *)
Definition awaiting (uuid : string) (e : CacheEntry) (h : nat) (d : N) (st : Server)
  : Prop :=
  (h < nextTimer st)%nat /\
  (forall id' e', analysisCache st !! id' = Some e' -> id' <> uuid ->
                  cleanupTimer e' <> h) /\
  (forall h' t', timers st !! h' = Some t' -> target t' = uuid -> h' = h) /\
  (((now st < d)%N /\ analysisCache st !! uuid = Some e /\
    timers st !! h = Some {| due := d; target := uuid |})
   \/ ((d <= now st)%N /\ analysisCache st !! uuid = None /\ timers st !! h = None)).

End SkinFacts.

(** ** The home screen: [Home.tsx] *)
Module Home.
Import Js Queue.

(** The two pieces of component state the offline queue feeds. *)
Record HomeState := {
  offlineResults : list Skin.TriageResultData;
  queuedCount : nat
}.

(** [useState([])] and [useState(0)]. *)
Definition mounted : HomeState := {| offlineResults := []; queuedCount := 0 |}.

(** [checkOfflineStatus]: a key that is set replaces the state, a key that
    is not set leaves it. It runs on mount and on every ['queueProcessed']. *)
Definition checkOfflineStatus (ls : LocalStorage) (st : HomeState) : HomeState :=
  {| offlineResults :=
       match analysisResults ls with
       | Some results => results
       | None => offlineResults st
       end;
     queuedCount :=
       match analysisQueue ls with
       | Some queue => List.length queue
       | None => queuedCount st
       end |}.

(** [handleViewResultClick]: the storage, the state, and the result handed
    to [onViewOfflineResult], if any. *)
Definition handleViewResultClick (ls : LocalStorage) (st : HomeState)
  : LocalStorage * HomeState * option Skin.TriageResultData :=
  match offlineResults st with
  | resultToView :: remainingResults =>
      (setResults ls remainingResults,
       {| offlineResults := remainingResults; queuedCount := queuedCount st |},
       Some resultToView)
  | [] => (ls, st, None)
  end.

(** [k] clicks in a row, with the results they showed, in order. *)
Fixpoint viewResults (k : nat) (ls : LocalStorage) (st : HomeState)
  : LocalStorage * HomeState * list Skin.TriageResultData :=
  match k with
  | O => (ls, st, [])
  | S k' =>
      match handleViewResultClick ls st with
      | (ls1, st1, Some r) =>
          let '(ls2, st2, shown) := viewResults k' ls1 st1 in (ls2, st2, r :: shown)
      | (ls1, st1, None) => viewResults k' ls1 st1
      end
  end.

End Home.

(** ** The client side of a request: [apiFetch], and the answers chosen in
    [SkinDetector.tsx] *)
Module Client.
Import Js Ai.

(** What [fetch] gives back: it throws, or there is a response with a
    status and a body that is JSON or not. *)
Inductive Network (J : Type) :=
| Unreachable
| Answered (status : N) (json : option J).
Arguments Unreachable {J}.
Arguments Answered {J} status json.

(** [apiFetch], on the outcome of its [fetch]; [messageOf] reads the member
    [message] of a JSON body. The result is the parsed body, or the message
    of the [Error] thrown. *)
Definition apiFetch {J} (messageOf : J -> option string) (net : Network J)
  : string + J :=
  match net with
  | Unreachable =>
      inl "Unable to connect to the server. Please check your internet connection and try again."
  | Answered status json =>
      if negb ((200 <=? status)%N && (status <=? 299)%N)
      then
        inl (match json with
             | Some jsonData =>
                 match messageOf jsonData with
                 | Some m =>
                     if truthy m then m
                     else "The server responded with an error (Status: "
                          +:+ pretty status +:+ ")."
                 | None => "The server responded with an error (Status: "
                           +:+ pretty status +:+ ")."
                 end
             | None => "The server responded with an error (Status: "
                       +:+ pretty status +:+ ")."
             end)
      else
        match json with
        | Some jsonData => inr jsonData
        | None => inl "Received an invalid response from the server."
        end
  end.

(** The member [message] of the bodies the skin endpoints send. *)
Definition messageOf (b : Skin.Body) : option string :=
  match b with
  | Skin.Message m => Some m
  | _ => None
  end.

(** A response of the server as [fetch] delivers it. *)
Definition delivered (r : Skin.Response) : Network Skin.Body :=
  Answered (Skin.httpStatus r) (Some (Skin.body r)).

(** The call of [processAnalysisQueue] for one queued payload, when the
    request reaches the handler of POST /api/ai/analyze-skin (or the network
    is down): what [await apiFetch(..)] gives. [described] and [analysed]
    are the outcomes of the two model calls of the handler. *)
Definition replayCall (online : bool) (p : Queue.Payload)
  (described analysed : ModelOutcome) : string + Skin.Body :=
  apiFetch messageOf
    (if online
     then delivered
            (Skin.analyzeSkin (Some (Queue.base64ImageData p)) (Some (Queue.mimeType p))
               (Queue.language p) (Queue.mcqAnswers p) described analysed)
     else Unreachable).

(** What [processAnalysisQueue] makes of the call: a body that is a result
    is pushed to the results, a thrown error is caught. The endpoint sends
    no other body with a 2xx status. *)
Definition passOutcome (x : string + Skin.Body) : option Queue.FetchOutcome :=
  match x with
  | inl m => Some (Queue.Rejected m)
  | inr (Skin.Triage r) => Some (Queue.Resolved r)
  | inr _ => None
  end.

(** The calls of a pass over [q] all go through [replayCall]: [fetch] is what
    they give for some state of the network and some outcomes of the model
    calls. *)
Definition servedBy (q : list Queue.QueuedAnalysisRequest)
  (fetch : nat -> Queue.FetchOutcome) : Prop :=
  forall i r, q !! i = Some r ->
    exists online described analysed,
      passOutcome (replayCall online (Queue.payload r) described analysed)
      = Some (fetch i).

(** [handleMcqAnswer] of [SkinDetector.tsx], on the record of answers used
    as a map from question to answer. *)
Definition handleMcqAnswer (prev : gmap string string) (questionText answer : string)
  : gmap string string :=
  if bool_decide (prev !! questionText = Some answer)
  then delete questionText prev
  else <[questionText := answer]> prev.

End Client.

(** ** Accounts: OTP login and the profile, in [server/src/index.ts] *)
Module Accounts.
Import Js.

(** A user document of [models/User.ts] without its key: [phone] (unique
    index) is the key of the collection. *)
Record IUser := {
  name : string;
  otp : option string;
  otpExpires : option N
}.

Abbreviation Users := (gmap string IUser).

Definition isDigit (a : ascii) : bool :=
  let n := nat_of_ascii a in (48 <=? n)%nat && (n <=? 57)%nat.

Fixpoint allDigits (s : string) : bool :=
  match s with
  | String a s' => isDigit a && allDigits s'
  | EmptyString => true
  end.

(** [/^\d{10}$/.test(phone)] *)
Definition tenDigits (phone : string) : bool :=
  (String.length phone =? 10)%nat && allDigits phone.

(** What [jwt.sign] is given: the payload and [expiresIn]. A token stands
    for exactly that. *)
Record Claims := { phone : string; isGuest : bool }.
Record Token := { claims : Claims; expiresIn : string }.

Inductive Body :=
| Message (message : string)
| OtpMessage (message otp : string)
| Login (token : Token) (userName userPhone : string)
| Profile (userName userPhone : string) (token : option Token).

Record Response := { httpStatus : N; body : Body }.

(** The outcome of the Twilio calls, consulted only when [useTwilio]. *)
Inductive SmsOutcome :=
| SmsSent
| SmsThrows (code : option N).

Inductive CheckOutcome :=
| CheckStatus (status : string)
| CheckThrows (code : option N).

(** [User.findOneAndUpdate({phone}, {name}, {upsert, new, setDefaultsOnInsert})] *)
Definition upsertName (users : Users) (phone name : string) : IUser :=
  match users !! phone with
  | Some u => {| name := name; otp := otp u; otpExpires := otpExpires u |}
  | None => {| name := name; otp := None; otpExpires := None |}
  end.

(** POST /api/auth/send-otp. [now] is [Date.now()] and [mockOtp] the six
    digits drawn with [Math.random()]. *)
Definition sendOtp (useTwilio : bool) (users : Users) (name : option string)
  (phone : string) (now : N) (mockOtp : string) (sms : SmsOutcome)
  : Users * Response :=
  if negb (truthy_opt name) || negb (tenDigits phone)
  then (users, {| httpStatus := 400; body := Message "Invalid name or phone number" |})
  else
    let user := upsertName users phone (default "" name) in
    let users1 := <[phone := user]> users in
    if useTwilio
    then
      match sms with
      | SmsSent =>
          (users1, {| httpStatus := 200; body := Message "OTP sent successfully" |})
      | SmsThrows code =>
          (users1,
           if bool_decide (code = Some 60200%N)
           then {| httpStatus := 400;
                   body := Message "The provided phone number is not valid." |}
           else {| httpStatus := 500;
                   body := Message "An internal server error occurred while sending OTP." |})
      end
    else
      (<[phone := {| name := Accounts.name user; otp := Some mockOtp;
                     otpExpires := Some (now + 5 * 60 * 1000)%N |}]> users1,
       {| httpStatus := 200;
          body := OtpMessage "OTP sent successfully (DEV MODE)" mockOtp |}).

(** The end of POST /api/auth/verify-otp: the second [findOne] and the
    token. *)
Definition login (users : Users) (phone : string) : Users * Response :=
  match users !! phone with
  | None => (users, {| httpStatus := 404; body := Message "User not found." |})
  | Some userDoc =>
      (users,
       {| httpStatus := 200;
          body := Login {| claims := {| phone := phone; isGuest := false |};
                           expiresIn := "7d" |}
                        (name userDoc) phone |})
  end.

(** POST /api/auth/verify-otp. [otp] is the member of the body, [None] when
    it is missing; [now] is [new Date()]. *)
Definition verifyOtp (useTwilio : bool) (users : Users) (phone : string)
  (otp : option string) (now : N) (check : CheckOutcome) : Users * Response :=
  if useTwilio
  then
    match check with
    | CheckThrows code =>
        (users,
         if bool_decide (code = Some 20404%N)
         then {| httpStatus := 400;
                 body := Message "Verification failed. The OTP may have expired." |}
         else {| httpStatus := 500;
                 body := Message "An internal server error occurred." |})
    | CheckStatus status =>
        if bool_decide (status <> "approved")
        then (users, {| httpStatus := 400; body := Message "Invalid or expired OTP." |})
        else login users phone
    end
  else
    match users !! phone with
    | None => (users, {| httpStatus := 400; body := Message "Invalid OTP." |})
    | Some user =>
        if bool_decide (Accounts.otp user <> otp)
        then (users, {| httpStatus := 400; body := Message "Invalid OTP." |})
        else
          if match otpExpires user with
             | None => true
             | Some expires => (expires <? now)%N
             end
          then (users, {| httpStatus := 400; body := Message "Expired OTP." |})
          else
            login (<[phone := {| name := name user; otp := None; otpExpires := None |}]> users)
                  phone
    end.

End Accounts.

(** ** Bookings, in [server/src/index.ts] *)
Module Bookings.
Import Js.

(** A booking document of [models/Booking.ts]. *)
Record IBooking := {
  hospital : string;
  date : string;
  time : string;
  token : string;
  patientName : string;
  relationship : option string;
  doctorName : option string;
  yourName : string;
  phone : string;
  userPhone : string
}.

Global Instance IBooking_eq_dec : EqDecision IBooking.
Proof. solve_decision. Defined.

Inductive Body :=
| Message (message : string)
| Saved (booking : IBooking)
| Listing (bookings : list IBooking).

Record Response := { httpStatus : N; body : Body }.

(** The collection, in the order of insertion (the order of [_id]). *)
Abbreviation Collection := (list IBooking).

(** [{ ...req.body, userPhone: req.user.phone }] *)
Definition owned (body : IBooking) (caller : string) : IBooking :=
  {| hospital := hospital body; date := date body; time := time body;
     token := token body; patientName := patientName body;
     relationship := relationship body; doctorName := doctorName body;
     yourName := yourName body; phone := phone body; userPhone := caller |}.

(** GET /api/bookings: [find({userPhone}).sort({_id: -1})]. *)
Definition getBookings (user : Accounts.Claims) (bookings : Collection) : Response :=
  if Accounts.isGuest user
  then {| httpStatus := 200; body := Listing [] |}
  else {| httpStatus := 200;
          body := Listing
                    (rev (List.filter
                            (fun b => bool_decide (userPhone b = Accounts.phone user))
                            bookings)) |}.

(** POST /api/bookings. [saved] tells whether [save()] resolved: the schema
    validation and the unique index on [token] are the store's. *)
Definition postBooking (user : Accounts.Claims) (bookings : Collection)
  (body : IBooking) (saved : bool) : Collection * Response :=
  if Accounts.isGuest user
  then (bookings, {| httpStatus := 403; body := Message "Guests cannot make bookings." |})
  else
    if saved
    then (bookings ++ [owned body (Accounts.phone user)],
          {| httpStatus := 201; body := Saved (owned body (Accounts.phone user)) |})
    else (bookings, {| httpStatus := 500; body := Message "Failed to save your booking." |}).

(** [Booking.deleteOne(filter)]: the first match goes. *)
Fixpoint deleteOne (matches : IBooking -> bool) (bookings : Collection)
  : Collection * nat :=
  match bookings with
  | [] => ([], 0%nat)
  | b :: rest =>
      if matches b then (rest, 1%nat)
      else let '(rest', n) := deleteOne matches rest in (b :: rest', n)
  end.

(** DELETE /api/bookings/:token *)
Definition deleteBooking (user : Accounts.Claims) (bookings : Collection)
  (tokenParam : string) : Collection * Response :=
  if Accounts.isGuest user
  then (bookings, {| httpStatus := 403; body := Message "Guests cannot cancel bookings." |})
  else
    let '(bookings', deletedCount) :=
      deleteOne (fun b => bool_decide (token b = tokenParam)
                          && bool_decide (userPhone b = Accounts.phone user))
                bookings in
    if (deletedCount =? 0)%nat
    then (bookings, {| httpStatus := 404; body := Message "Booking not found." |})
    else (bookings', {| httpStatus := 200; body := Message "Booking cancelled successfully." |}).

(** The bookings [GET /api/bookings] lists for a registered user. *)
Definition listed (caller : string) (bookings : Collection) : list IBooking :=
  match body (getBookings {| Accounts.phone := caller; Accounts.isGuest := false |} bookings) with
  | Listing l => l
  | _ => []
  end.

(** The bookings of everybody but [caller], in order. *)
Definition ofOthers (caller : string) (bookings : Collection) : list IBooking :=
  List.filter (fun b => bool_decide (userPhone b <> caller)) bookings.

End Bookings.

(** ** PUT /api/profile *)
Module Profile.
Import Js Accounts.

(** The three collections the handler touches. *)
Record Store := {
  users : Users;
  sessions : gmap string Chat.IChatSession;
  bookings : Bookings.Collection
}.

Definition reassign (current new : string) (b : Bookings.IBooking) : Bookings.IBooking :=
  if bool_decide (Bookings.userPhone b = current) then Bookings.owned b new else b.

(** [ChatSession.updateOne({userPhone: current}, {userPhone: new})]; the
    unique index on [userPhone] makes the update throw when [new] already
    has a session. *)
Definition moveSession (sessions : gmap string Chat.IChatSession) (current new : string)
  : option (gmap string Chat.IChatSession) :=
  match sessions !! current with
  | None => Some sessions
  | Some session =>
      match sessions !! new with
      | Some _ => None
      | None => Some (<[new := session]> (delete current sessions))
      end
  end.

(** The handler; [user] is [req.user], what [authMiddleware] verified. *)
Definition updateProfile (user : Claims) (st : Store) (name : option string)
  (newPhone : string) : Store * Response :=
  if isGuest user
  then (st, {| httpStatus := 403; body := Message "Guests cannot update profiles." |})
  else
    if negb (truthy_opt name) || negb (tenDigits newPhone)
    then (st, {| httpStatus := 400;
                 body := Message "Valid name and 10-digit phone number are required." |})
    else
      let currentUserPhone := phone user in
      match users st !! currentUserPhone with
      | None => (st, {| httpStatus := 404; body := Message "User not found." |})
      | Some u =>
          let renamed := {| Accounts.name := default "" name; otp := otp u;
                            otpExpires := otpExpires u |} in
          if bool_decide (newPhone <> currentUserPhone)
          then
            match users st !! newPhone with
            | Some _ =>
                (st, {| httpStatus := 409;
                        body := Message "This phone number is already in use." |})
            | None =>
                match moveSession (sessions st) currentUserPhone newPhone with
                | None =>
                    (st, {| httpStatus := 500;
                            body := Message "Failed to update profile." |})
                | Some sessions' =>
                    ({| users := <[newPhone := renamed]> (delete currentUserPhone (users st));
                        sessions := sessions';
                        bookings := map (reassign currentUserPhone newPhone) (bookings st) |},
                     {| httpStatus := 200;
                        body := Profile (default "" name) newPhone
                                  (Some {| claims := {| phone := newPhone; isGuest := false |};
                                           expiresIn := "7d" |}) |})
                end
            end
          else
            ({| users := <[currentUserPhone := renamed]> (users st);
                sessions := sessions st;
                bookings := bookings st |},
             {| httpStatus := 200;
                body := Profile (default "" name) currentUserPhone None |})
      end.

End Profile.

(** ** Submitting an analysis: [SkinDetector.handleSubmitAnalysis] *)
Module Submit.
Import Js Ai.

(** One offline submission: the payload and the two readings of
    [Date.now()]. *)
Record Offline := {
  item : Queue.Payload;
  idNow : N;
  stampNow : N
}.

Definition entryOf (o : Offline) : Queue.QueuedAnalysisRequest :=
  {| Queue.id := Queue.requestId (idNow o); Queue.payload := item o;
     Queue.timestamp := stampNow o |}.

(** [queueAnalysisRequest] for each submission, in order. *)
Definition enqueueAll (ls : Queue.LocalStorage) (items : list Offline)
  : Queue.LocalStorage :=
  fold_left (fun ls o => Queue.queueAnalysisRequest ls (item o) (idNow o) (stampNow o))
            items ls.

(** What the component is left with: the queued screen, the result handed
    to [onAnalysisComplete], or the error shown on the upload screen. *)
Inductive Shown :=
| QueuedScreen
| Completed (result : Skin.Body)
| Failed (message : string).

(** [err.message || t('error_generic')] *)
Definition errorText (t : string -> string) (m : string) : string :=
  if truthy m then m else t "error_generic".

(** [handleSubmitAnalysis] once the file has been read: [t] is the
    translation function, [online] is [navigator.onLine], [reached1] and
    [reached2] tell whether the two requests got through to the server,
    [entries] are the chosen answers. A body without [analysisId] makes the
    second request carry none, and no key of the cache matches it. *)
Definition handleSubmitAnalysis (t : string -> string)
  (online reached1 reached2 : bool)
  (ls : Queue.LocalStorage) (st : Skin.Server)
  (base64String mimeType language : string) (entries : list (string * string))
  (idNow stampNow : N) (described analysed : ModelOutcome) (uuid : string)
  : Queue.LocalStorage * Skin.Server * Shown :=
  if negb online
  then
    let payload := {| Queue.base64ImageData := base64String; Queue.mimeType := mimeType;
                      Queue.language := language; Queue.mcqAnswers := Some entries |} in
    (Queue.queueAnalysisRequest ls payload idNow stampNow, st, QueuedScreen)
  else
    let '(st1, net1) :=
      if reached1
      then
        let '(s, r) :=
          Skin.describeSkinImage st (Some base64String) (Some mimeType) described uuid in
        (s, Client.delivered r)
      else (st, Client.Unreachable) in
    match Client.apiFetch Client.messageOf net1 with
    | inl m => (ls, st1, Failed (errorText t m))
    | inr body1 =>
        let '(st2, net2) :=
          if reached2
          then
            match body1 with
            | Skin.AnalysisId analysisId =>
                let '(s, r) :=
                  Skin.getSkinConclusion st1 analysisId (Some entries) language analysed in
                (s, Client.delivered r)
            | _ => (st1, Client.delivered Skin.sessionNotFound)
            end
          else (st1, Client.Unreachable) in
        match Client.apiFetch Client.messageOf net2 with
        | inl m => (ls, st2, Failed (errorText t m))
        | inr result => (ls, st2, Completed result)
        end
    end.

End Submit.

(** ** Sample documents for the worked examples *)
Module Samples.

Definition booking : Bookings.IBooking :=
  {| Bookings.hospital := "City Hospital"; Bookings.date := "2026-01-15";
     Bookings.time := "10:30"; Bookings.token := "TKN-4821";
     Bookings.patientName := "Asha"; Bookings.relationship := None;
     Bookings.doctorName := Some "Dr. Rao"; Bookings.yourName := "Asha";
     Bookings.phone := "9876543210"; Bookings.userPhone := "" |}.

Definition asha : Accounts.Claims :=
  {| Accounts.phone := "9876543210"; Accounts.isGuest := false |}.

Definition guest : Accounts.Claims :=
  {| Accounts.phone := "guest_1700000000000_k3j9x2"; Accounts.isGuest := true |}.

(** One registered user with a chat session and a booking. *)
Definition store : Profile.Store :=
  {| Profile.users :=
       {[ "9876543210" := {| Accounts.name := "Asha"; Accounts.otp := None;
                             Accounts.otpExpires := None |} ]};
     Profile.sessions :=
       {[ "9876543210" :=
            {| Chat.language := "en";
               Chat.history := [Chat.userTurn "I have a rash";
                                Chat.modelTurn "Since when?"] |} ]};
     Profile.bookings := [Bookings.owned booking "9876543210"] |}.

End Samples.

(** * Properties *)

Import Js Ai.

(** ** The chat history sanitizer *)
Section Sanitizer.
Import Chat.

Lemma alternates_snoc_other (l : list IHistory) x y :
  alternates (l ++ [x]) -> role y <> role x -> alternates ((l ++ [x]) ++ [y]).
Proof.
  induction l as [|a l IH]; simpl; intros H Hne.
  - split; [congruence | exact I].
  - destruct l as [|b l]; simpl in *.
    + destruct H as [Hab _]. repeat split; [exact Hab | congruence].
    + destruct H as [Hab H]. split; [exact Hab | apply IH; assumption].
Qed.

Lemma alternates_snoc_same (l : list IHistory) x y :
  alternates (l ++ [x]) -> role y = role x -> alternates (l ++ [y]).
Proof.
  induction l as [|a l IH]; simpl; intros H He; [exact I|].
  destruct l as [|b l]; simpl in *.
  - destruct H as [Hab _]. split; [congruence | exact I].
  - destruct H as [Hab H]. split; [exact Hab | apply IH; assumption].
Qed.

Lemma alternates_init (l : list IHistory) x :
  alternates (l ++ [x]) -> alternates l.
Proof.
  induction l as [|a l IH]; simpl; intros H; [exact I|].
  destruct l as [|b l]; simpl in *; [exact I|].
  destruct H as [Hab H]. split; [exact Hab | apply IH; exact H].
Qed.

Lemma head_role_snoc (l : list IHistory) x y :
  role y = role x ->
  role <$> head (l ++ [y]) = role <$> head (l ++ [x]).
Proof. intros He. destruct l; simpl; [by rewrite He | done]. Qed.

(** The loop never reads a missing [prev]; it keeps the alternation of what
    it has built and the role of the first element. *)
Lemma alternateLoop_spec rest : forall init prev,
  alternates (init ++ [prev]) ->
  exists init' prev',
    alternateLoop rest (init ++ [prev]) = inr (init' ++ [prev']) /\
    alternates (init' ++ [prev']) /\
    role <$> head (init' ++ [prev']) = role <$> head (init ++ [prev]).
Proof.
  induction rest as [|current rest IH]; intros init prev Halt.
  - exists init, prev. simpl. auto.
  - simpl. rewrite last_snoc. unfold push, pop.
    case_bool_decide as Hrole.
    + rewrite removelast_last.
      destruct (IH init current) as (i' & p' & -> & Ha & Hh).
      { eapply alternates_snoc_same; eauto. }
      exists i', p'. repeat split; [exact Ha|].
      rewrite Hh. by apply head_role_snoc.
    + destruct (IH (init ++ [prev]) current) as (i' & p' & -> & Ha & Hh).
      { by apply alternates_snoc_other. }
      exists i', p'. repeat split; [exact Ha|].
      rewrite Hh. by destruct init.
Qed.

Lemma alternate_spec (cleanHistory : list IHistory) :
  exists out,
    alternate cleanHistory = inr out /\ alternates out /\
    role <$> head out = role <$> head cleanHistory /\
    (cleanHistory = [] <-> out = []).
Proof.
  destruct cleanHistory as [|first rest].
  - exists []. simpl. auto.
  - simpl. unfold push. simpl.
    destruct (alternateLoop_spec rest [] first I) as (i' & p' & He & Ha & Hh).
    simpl in He. exists (i' ++ [p']). repeat split; try done.
    intros Hnil. by destruct i'.
Qed.

Lemma dropTrailingUser_spec (h : list IHistory) :
  alternates h ->
  alternates (dropTrailingUser h) /\
  (dropTrailingUser h = [] \/ endsWithModel (dropTrailingUser h)) /\
  (dropTrailingUser h = [] \/
   role <$> head (dropTrailingUser h) = role <$> head h).
Proof.
  intros Halt. unfold dropTrailingUser.
  destruct (last h) as [x|] eqn:Hlast.
  - apply last_Some in Hlast as [l ->].
    case_bool_decide as Hrole.
    + unfold pop. rewrite removelast_last. split; [by eapply alternates_init|].
      split.
      * destruct (last l) as [p|] eqn:Hl.
        -- apply last_Some in Hl as [l' ->]. right.
           unfold endsWithModel. rewrite last_snoc. simpl.
           assert (role p <> role x) as Hne.
           { clear -Halt. induction l' as [|a l' IH]; simpl in *.
             - tauto.
             - destruct l' as [|b l']; simpl in *; [tauto|]. apply IH. tauto. }
           destruct (role p); [congruence | done].
        -- left. by apply last_None in Hl.
      * destruct l; [by left | by right].
    + split; [exact Halt|]. split; [|by right].
      right. unfold endsWithModel. rewrite last_snoc. simpl.
      destruct (role x); [congruence | done].
  - apply last_None in Hlast as ->. simpl. auto.
Qed.

(** The sanitizer always returns a history: the [TypeError] of the loop
    cannot occur. *)
Lemma sanitizeHistory_total (stored : list IHistory) :
  exists out, sanitizeHistory stored = inr out.
Proof.
  unfold sanitizeHistory.
  destruct (alternate_spec (dropLeadingModel (map toSdk (validHistory stored))))
    as (out & -> & _). eauto.
Qed.

(** What the sanitizer does establish for every stored history: strict
    alternation, and a result that is empty or ends with a model message. *)
Lemma sanitizeHistory_alternates_ends_model (stored out : list IHistory) :
  sanitizeHistory stored = inr out ->
  alternates out /\ (out = [] \/ endsWithModel out).
Proof.
  unfold sanitizeHistory.
  destruct (alternate_spec (dropLeadingModel (map toSdk (validHistory stored))))
    as (mid & -> & Halt & _).
  intros [= <-]. destruct (dropTrailingUser_spec mid Halt) as (? & ? & _). auto.
Qed.

(** When at most one model message leads the non-empty stored messages, a
    non-empty result starts with a user message. *)
Lemma sanitizeHistory_starts_user (stored out : list IHistory) :
  sanitizeHistory stored = inr out ->
  role <$> head (dropLeadingModel (map toSdk (validHistory stored))) = Some user ->
  out = [] \/ startsWithUser out.
Proof.
  unfold sanitizeHistory.
  destruct (alternate_spec (dropLeadingModel (map toSdk (validHistory stored))))
    as (mid & -> & Halt & Hhead & _).
  intros [= <-] Hu. destruct (dropTrailingUser_spec mid Halt) as (_ & _ & [?|Hh]).
  - by left.
  - right. unfold startsWithUser. by rewrite Hh, Hhead.
Qed.

(** C1, evaluated on the code: a stored history of two model messages
    passes the sanitizer of POST /api/ai/chat as the single message
    [model "b"]. Step 3 removes one leading model message only, so the
    history handed to the model call starts with role model, where the
    specification requires role user. The handler builds such a history
    by itself: after two answered turns whose user message is a blank, step
    1 drops both user messages and the third request sends [model "r2"]. *)
Theorem sanitize_two_leading_model_messages :
  sanitizeHistory [modelTurn "a"; modelTurn "b"] = inr [modelTurn "b"] /\
  ~ startsWithUser [modelTurn "b"] /\
  storedHistory
    (db' (chat (db' (chat ∅ "p" " " "en" (Returns (Some "r1"))))
               "p" " " "en" (Returns (Some "r2")))) "p"
  = [userTurn " "; modelTurn "r1"; userTurn " "; modelTurn "r2"] /\
  sent (chat (db' (chat (db' (chat ∅ "p" " " "en" (Returns (Some "r1"))))
                        "p" " " "en" (Returns (Some "r2"))))
             "p" "hello" "en" (Returns (Some "r3")))
  = Some [modelTurn "r2"].
Proof.
  split; [reflexivity|]. split; [|split; reflexivity].
  unfold startsWithUser. simpl. discriminate.
Qed.

End Sanitizer.

(** ** Rollback of the user turn in POST /api/ai/chat *)
Section Rollback.
Import Chat.

Lemma storedHistory_save (db : Db) phone s :
  storedHistory (save db phone s) phone = history s.
Proof. unfold storedHistory, save. by rewrite lookup_insert_eq. Qed.

Lemma openSession_stored (db : Db) phone lang :
  storedHistory (openSession db phone lang).1 phone
  = history (openSession db phone lang).2.
Proof.
  unfold openSession, storedHistory.
  destruct (db !! phone) as [s|] eqn:Hs.
  - case_bool_decide; simpl; [by rewrite lookup_insert_eq | by rewrite Hs].
  - simpl. by rewrite lookup_insert_eq.
Qed.

(** C6, refuted as stated: for the empty collection and a model call that
    throws (a network failure), the stored history has length 1 after the
    failure and had length 0 before the user turn was added. *)
Lemma chat_throw_keeps_user_turn :
  length (storedHistory
            (db' (chat ∅ "p" "hello" "en" (Throws (Error "fetch failed")))) "p")
  <> length (history (openSession ∅ "p" "en").2).
Proof. vm_compute. discriminate. Qed.

(** C6, amended: the user turn is rolled back exactly on the path the code
    guards, a model reply without text ([undefined] or the empty string):
    the stored history is then the one from before the turn was added.
    When the model call throws, the turn stays persisted: the stored
    history is the previous one followed by the user turn. *)
Theorem chat_rollback_on_empty_reply (db : Db) (phone message lang : string) :
  let before := history (openSession db phone lang).2 in
  storedHistory (db' (chat db phone message lang (Returns None))) phone = before /\
  storedHistory (db' (chat db phone message lang (Returns (Some "")))) phone = before /\
  forall e,
    storedHistory (db' (chat db phone message lang (Throws e))) phone
    = before ++ [userTurn message].
Proof.
  unfold chat.
  destruct (openSession db phone lang) as [db1 session] eqn:Hopen. simpl.
  destruct (sanitizeHistory_total (history session)) as [clean ->].
  simpl. rewrite !storedHistory_save. simpl.
  unfold pop, push. rewrite removelast_last. auto.
Qed.

End Rollback.

(** ** Parsing of the conclusion reply *)
Section Parsing.
Import Skin.

(** The scenario reply has five lines; only the labelled ones are read. *)
Example mildReply_lines :
  split (trim Scenario.mildReply) nl
  = ["CONCLUSION: MILD"; "EXPLANATION: ..."; "SELF_CARE_TIPS: * Rest";
     "* Hydrate"; "DOCTOR_SUGGESTION: NONE"].
Proof. reflexivity. Qed.

(** Tips on one line, as the prompt asks for them, are all read. *)
Example tips_on_one_line :
  conclusionParse ("CONCLUSION: mild" +:+ nl +:+ "EXPLANATION: ..." +:+ nl +:+
                   "SELF_CARE_TIPS: * Rest * Hydrate" +:+ nl +:+
                   "DOCTOR_SUGGESTION: NONE")
  = inr {| conclusion := MILD; explanation := "...";
           selfCareTips := Some ["Rest"; "Hydrate"];
           doctorSuggestion := Some "" |}.
Proof. reflexivity. Qed.

(** C5, refuted as stated: with the description cached by phase 1 and the
    scenario reply, get-skin-conclusion does not return a result with
    [selfCareTips = ["Rest"; "Hydrate"]] and an absent [doctorSuggestion]. *)
Lemma scenario_result_not_as_claimed :
  ~ exists r,
      (getSkinConclusion Scenario.described "6f1c2d3e" (Some []) "en"
         (Returns (Some Scenario.mildReply))).2 = ok (Triage r) /\
      conclusion r = MILD /\
      selfCareTips r = Some ["Rest"; "Hydrate"] /\
      doctorSuggestion r = None.
Proof.
  intros (r & Hr & _ & Htips & _).
  vm_compute in Hr. injection Hr as <-. simpl in Htips. discriminate.
Qed.

(** C5, amended: on that input get-skin-conclusion answers 200 with
    conclusion MILD, explanation "...", [selfCareTips = ["Rest"]] (the line
    "* Hydrate" carries no label and is skipped) and [doctorSuggestion] the
    empty string; the session is deleted. *)
Theorem scenario_result :
  (getSkinConclusion Scenario.described "6f1c2d3e" (Some []) "en"
     (Returns (Some Scenario.mildReply))).2
  = ok (Triage {| conclusion := MILD; explanation := "...";
                  selfCareTips := Some ["Rest"];
                  doctorSuggestion := Some "" |}) /\
  analysisCache
    (getSkinConclusion Scenario.described "6f1c2d3e" (Some []) "en"
       (Returns (Some Scenario.mildReply))).1 !! "6f1c2d3e" = None.
Proof. split; reflexivity. Qed.

End Parsing.

(** ** The combined endpoint against the two-phase path *)
Section Combined.
Import Skin.

Lemma parse_agree (responseText : string) (r : TriageResultData) :
  conclusionParse responseText = inr r <-> analyzeParse responseText = inr r.
Proof.
  unfold conclusionParse, analyzeParse.
  change analyzeLine with conclusionLine.
  set (result := fold_left conclusionLine _ emptyParsed).
  destruct (p_conclusion result), (p_explanation result) as [e|];
    try (split; discriminate).
  destruct (truthy e); [reflexivity | split; discriminate].
Qed.

(** C7, refuted as stated: the phase-2 prompts of the two paths are not
    identical, already for language "en", the scenario description and no
    answers. *)
Lemma conclusion_prompts_differ :
  conclusionPrompt "en" "redness, no swelling" None
  <> analyzePrompt "en" "redness, no swelling" None.
Proof. apply String.eqb_neq. vm_compute. reflexivity. Qed.

(** C7, amended: the combined endpoint uses the same phase-1 prompt, the
    same rendering of the answers and the same line parser as the two-phase
    path, while its phase-2 prompt is worded differently. For every request
    and every pair of model replies it returns a [TriageResultData] exactly
    when the two-phase path does, and then the same one. *)
Theorem analyze_skin_agrees_with_two_phase
  (st : Server) (base64ImageData mimeType : option string) (language : string)
  (mcqAnswers : McqAnswers) (described analysed : ModelOutcome) (uuid : string) :
  singleImagePrompt = analyzeSingleImagePrompt /\
  conclusionAdditionalInfo mcqAnswers = analyzeAdditionalInfo mcqAnswers /\
  (forall result line, conclusionLine result line = analyzeLine result line) /\
  forall r,
    (twoPhase st base64ImageData mimeType language mcqAnswers
       described analysed uuid).2 = ok (Triage r)
    <-> analyzeSkin base64ImageData mimeType language mcqAnswers
          described analysed = ok (Triage r).
Proof.
  repeat split; try reflexivity.
  - unfold twoPhase, analyzeSkin, describeSkinImage.
    destruct (negb (truthy_opt base64ImageData) || negb (truthy_opt mimeType));
      [done|].
    destruct described as [e|descriptionText]; [done|].
    destruct (negb (truthy_opt descriptionText)); [done|].
    simpl. unfold getSkinConclusion, conclusionLookup, cacheDescription. simpl.
    rewrite lookup_insert_eq. simpl. unfold conclusionFinish.
    destruct analysed as [e|responseText]; [done|].
    destruct (negb (truthy_opt responseText)); [done|].
    destruct (conclusionParse _) as [e|r'] eqn:Hp; simpl; [done|].
    apply parse_agree in Hp. rewrite Hp. done.
  - unfold twoPhase, analyzeSkin, describeSkinImage.
    destruct (negb (truthy_opt base64ImageData) || negb (truthy_opt mimeType));
      [done|].
    destruct described as [e|descriptionText]; [done|].
    destruct (negb (truthy_opt descriptionText)); [done|].
    simpl. unfold getSkinConclusion, conclusionLookup, cacheDescription. simpl.
    rewrite lookup_insert_eq. simpl. unfold conclusionFinish.
    destruct analysed as [e|responseText]; [done|].
    destruct (negb (truthy_opt responseText)); [done|].
    destruct (analyzeParse _) as [e|r'] eqn:Hp; simpl.
    + discriminate.
    + apply parse_agree in Hp. rewrite Hp. done.
Qed.

End Combined.

(** ** The analysis session cache *)
Section Cache.
Import Skin.

Implicit Types (st : Server) (c : gmap string CacheEntry) (fired : list (nat * Timer)).

Lemma fired_lookup_None c fired (analysisId : string) :
  c !! analysisId = None ->
  foldr (fun ht c => delete (target ht.2) c) c fired !! analysisId = None.
Proof.
  intros Hc. induction fired as [|ht fired IH]; simpl; [exact Hc|].
  apply lookup_delete_None. by right.
Qed.

Lemma fired_lookup_target c fired (ht : nat * Timer) :
  ht ∈ fired ->
  foldr (fun ht c => delete (target ht.2) c) c fired !! target ht.2 = None.
Proof.
  induction fired as [|ht' fired IH]; simpl; intros Hin.
  - by apply elem_of_nil in Hin.
  - apply elem_of_cons in Hin as [<- | Hin].
    + apply lookup_delete_eq.
    + apply lookup_delete_None. right. by apply IH.
Qed.

Lemma fired_lookup_other c fired (analysisId : string) :
  (forall ht, ht ∈ fired -> target ht.2 <> analysisId) ->
  foldr (fun ht c => delete (target ht.2) c) c fired !! analysisId
  = c !! analysisId.
Proof.
  induction fired as [|ht fired IH]; simpl; intros Hall; [done|].
  rewrite lookup_delete_ne.
  - apply IH. intros ht' Hin. apply Hall. by right.
  - apply Hall. by left.
Qed.

(** A session that no conclusion call looked up is gone once fifteen
    minutes have passed since phase 1 stored it. *)
Lemma unvisited_session_expires st (uuid descriptionText : string) (dt : N) :
  (expiry <= dt)%N ->
  analysisCache (elapse (cacheDescription st uuid descriptionText) dt) !! uuid
  = None.
Proof.
  intros Hdt. unfold elapse. simpl.
  apply (fired_lookup_target _ _
           (nextTimer st, {| due := now st + expiry; target := uuid |})).
  apply elem_of_map_to_list, map_lookup_filter_Some. split.
  - apply lookup_insert_eq.
  - unfold isDue. simpl. lia.
Qed.

(** The finish of a conclusion call changes the cache only by deleting its
    own [analysisId], and only when it [concludes]. *)
Lemma conclusionFinish_cache st (analysisId : string) (reply : ModelOutcome) :
  (conclusionFinish st analysisId reply).1 = st \/
  (concludes analysisId (ConclusionFinish analysisId reply) /\
   (conclusionFinish st analysisId reply).1 = cacheDelete st analysisId).
Proof.
  unfold conclusionFinish, concludes, parses.
  destruct reply as [e|[responseText|]]; simpl; auto.
  destruct (negb (truthy responseText)); simpl; auto.
  destruct (conclusionParse responseText); simpl; auto.
Qed.

Lemma failing_finish st (analysisId : string) (reply : ModelOutcome) :
  failing reply -> (conclusionFinish st analysisId reply).1 = st.
Proof.
  unfold failing, conclusionFinish, parses.
  destruct reply as [e|[responseText|]]; simpl; auto.
  intros [-> | Hp]; [done|].
  destruct (negb (truthy responseText)); simpl; auto.
  destruct (conclusionParse responseText); [done | discriminate].
Qed.

(** No event other than a [Describe] that draws [analysisId] stores a
    session under it. *)
Lemma step_keeps_absent st (analysisId : string) (ev : Event) :
  analysisCache st !! analysisId = None ->
  ~ issues analysisId ev ->
  analysisCache (step st ev) !! analysisId = None.
Proof.
  intros Hc Hev. destruct ev as [b m reply uuid|id mcq lang|id reply|dt]; simpl in *.
  - unfold describeSkinImage.
    destruct (negb (truthy_opt b) || negb (truthy_opt m)); [done|].
    destruct reply as [e|descriptionText]; [done|].
    destruct (negb (truthy_opt descriptionText)); [done|].
    simpl. by rewrite lookup_insert_ne.
  - unfold conclusionLookup. by destruct (analysisCache st !! id).
  - destruct (conclusionFinish_cache st id reply) as [-> | [_ ->]]; [done|].
    simpl. apply lookup_delete_None. by right.
  - by apply fired_lookup_None.
Qed.

Lemma run_keeps_absent (evs : list Event) : forall st (analysisId : string),
  analysisCache st !! analysisId = None ->
  Forall (fun ev => ~ issues analysisId ev) evs ->
  analysisCache (run st evs) !! analysisId = None.
Proof.
  induction evs as [|ev evs IH]; intros st analysisId Hc Hall; [exact Hc|].
  inversion Hall; subst. simpl.
  apply IH; [by apply step_keeps_absent | done].
Qed.

Lemma conclusionFinish_deletes st (analysisId : string) (reply : ModelOutcome)
  st' (r : TriageResultData) :
  conclusionFinish st analysisId reply = (st', ok (Triage r)) ->
  analysisCache st' !! analysisId = None.
Proof.
  unfold conclusionFinish.
  destruct reply as [e|responseText]; [discriminate|].
  destruct (negb (truthy_opt responseText)); [discriminate|].
  destruct (conclusionParse _); [discriminate|].
  intros [= <- _]. apply lookup_delete_eq.
Qed.

Lemma getSkinConclusion_finish st (analysisId : string) (mcqAnswers : McqAnswers)
  (language : string) (reply : ModelOutcome) st' (r : TriageResultData) :
  getSkinConclusion st analysisId mcqAnswers language reply = (st', ok (Triage r)) ->
  exists st1, conclusionFinish st1 analysisId reply = (st', ok (Triage r)).
Proof.
  unfold getSkinConclusion, conclusionLookup.
  destruct (analysisCache st !! analysisId) as [cached|]; [eauto | discriminate].
Qed.

(** C3: once a get-skin-conclusion call on [analysisId] has returned a
    [TriageResultData] (the whole call run in one piece from [st], or its
    part after the model call run from [st] when other requests came in
    between), the session is deleted, and whatever the server does next short
    of phase 1 drawing the very same identifier again (other conclusion
    calls, timers firing, other sessions being created), the session stays
    absent and a further get-skin-conclusion call on [analysisId] answers
    404, session not found, and changes nothing. *)
Theorem consumed_session_is_a_miss st (analysisId : string)
  (mcqAnswers : McqAnswers) (language : string) (reply : ModelOutcome)
  st' (r : TriageResultData) :
  getSkinConclusion st analysisId mcqAnswers language reply = (st', ok (Triage r))
  \/ conclusionFinish st analysisId reply = (st', ok (Triage r)) ->
  analysisCache st' !! analysisId = None /\
  forall (evs : list Event) (mcqAnswers2 : McqAnswers) (language2 : string)
         (reply2 : ModelOutcome),
    Forall (fun ev => ~ issues analysisId ev) evs ->
    analysisCache (run st' evs) !! analysisId = None /\
    getSkinConclusion (run st' evs) analysisId mcqAnswers2 language2 reply2
    = (run st' evs, sessionNotFound).
Proof.
  intros Hcall.
  assert (analysisCache st' !! analysisId = None) as Hgone.
  { destruct Hcall as [(st1 & Hfin)%getSkinConclusion_finish | Hfin];
      eapply conclusionFinish_deletes; eauto. }
  split; [exact Hgone|].
  intros evs mcq2 lang2 reply2 Hevs.
  pose proof (run_keeps_absent evs st' analysisId Hgone Hevs) as Hrun.
  split; [exact Hrun|].
  unfold getSkinConclusion, conclusionLookup. by rewrite Hrun.
Qed.

(** A witness of C3 on the scenario of the specification. *)
Lemma consumed_session_is_a_miss_witness :
  analysisCache
    (getSkinConclusion Scenario.described "6f1c2d3e" (Some []) "en"
       (Returns (Some Scenario.mildReply))).1 !! "6f1c2d3e" = None /\
  forall (evs : list Event) (mcqAnswers2 : McqAnswers) (language2 : string)
         (reply2 : ModelOutcome),
    Forall (fun ev => ~ issues "6f1c2d3e" ev) evs ->
    analysisCache
      (run (getSkinConclusion Scenario.described "6f1c2d3e" (Some []) "en"
              (Returns (Some Scenario.mildReply))).1 evs) !! "6f1c2d3e" = None /\
    getSkinConclusion
      (run (getSkinConclusion Scenario.described "6f1c2d3e" (Some []) "en"
              (Returns (Some Scenario.mildReply))).1 evs)
      "6f1c2d3e" mcqAnswers2 language2 reply2
    = (run (getSkinConclusion Scenario.described "6f1c2d3e" (Some []) "en"
              (Returns (Some Scenario.mildReply))).1 evs, sessionNotFound).
Proof.
  apply (consumed_session_is_a_miss Scenario.described "6f1c2d3e" (Some []) "en"
           (Returns (Some Scenario.mildReply)) _ Scenario.mildResult).
  left. reflexivity.
Defined.

Lemma fired_lookup_Some c fired (analysisId : string) (e : CacheEntry) :
  foldr (fun ht c => delete (target ht.2) c) c fired !! analysisId = Some e ->
  c !! analysisId = Some e.
Proof.
  induction fired as [|ht fired IH]; simpl; [done|].
  intros [_ H]%lookup_delete_Some. by apply IH.
Qed.

Lemma wf_init : wf init.
Proof. split; intros h; unfold init; simpl; [intros t e H | intros [t H]]; done. Qed.

(** The invariant holds along every trace whose [Describe] events draw
    fresh identifiers. *)
Lemma wf_step st (ev : Event) :
  wf st ->
  match ev with Describe _ _ _ uuid => fresh st uuid | _ => True end ->
  wf (step st ev).
Proof.
  intros [HA HB] Hfresh.
  destruct ev as [b m reply uuid|id mcq lang|id reply|dt]; simpl.
  - unfold describeSkinImage.
    destruct (negb (truthy_opt b) || negb (truthy_opt m)); [done|].
    destruct reply as [e|descriptionText]; [done|].
    destruct (negb (truthy_opt descriptionText)); [done|].
    destruct Hfresh as [Hnone Htimers]. split; simpl.
    + intros h t e [[<- <-] | [Hne Ht]]%lookup_insert_Some; simpl.
      * rewrite lookup_insert_eq. by intros [= <-].
      * rewrite lookup_insert_ne by (by apply not_eq_sym, (Htimers h)).
        by apply HA.
    + intros h [t [[<- _] | [_ Ht]]%lookup_insert_Some]; [lia|].
      assert (h < nextTimer st)%nat by (apply HB; eauto). lia.
  - unfold conclusionLookup.
    destruct (analysisCache st !! id) as [cached|]; [|done].
    split; simpl.
    + intros h t e [_ Ht]%lookup_delete_Some. by apply HA.
    + intros h [t [_ Ht]%lookup_delete_Some]. apply HB. eauto.
  - destruct (conclusionFinish_cache st id reply) as [-> | [_ ->]]; [done|].
    split; simpl; [|done].
    intros h t e Ht [_ He]%lookup_delete_Some. by apply (HA h t).
  - split; simpl.
    + intros h t e [Ht _]%map_lookup_filter_Some He%fired_lookup_Some.
      by apply (HA h t).
    + intros h [t [Ht _]%map_lookup_filter_Some]. apply HB. eauto.
Qed.

Lemma wf_run (evs : list Event) : forall st,
  wf st -> freshTrace st evs -> wf (run st evs).
Proof.
  induction evs as [|ev evs IH]; intros st Hwf Hfresh; [exact Hwf|].
  destruct Hfresh as [Hev Hrest]. simpl. apply IH; [|exact Hrest].
  apply wf_step; [exact Hwf|]. by destruct ev.
Qed.

Lemma untimed_step st (analysisId : string) (cached : CacheEntry) (ev : Event) :
  untimed analysisId cached st ->
  ~ issues analysisId ev -> ~ concludes analysisId ev ->
  untimed analysisId cached (step st ev).
Proof.
  intros [Hc Ht] Hissue Hconc.
  destruct ev as [b m reply uuid|id mcq lang|id reply|dt]; simpl in *.
  - unfold describeSkinImage.
    destruct (negb (truthy_opt b) || negb (truthy_opt m)); [done|].
    destruct reply as [e|descriptionText]; [done|].
    destruct (negb (truthy_opt descriptionText)); [done|].
    split; simpl.
    + by rewrite lookup_insert_ne.
    + intros h t [[_ <-] | [_ Hh]]%lookup_insert_Some; simpl; [done|].
      by apply (Ht h).
  - unfold conclusionLookup.
    destruct (analysisCache st !! id); [|done].
    split; simpl; [done|].
    intros h t [_ Hh]%lookup_delete_Some. by apply (Ht h).
  - destruct (conclusionFinish_cache st id reply) as [-> | [Hok ->]]; [done|].
    split; simpl; [|done].
    rewrite lookup_delete_ne; [done|].
    intros ->. by apply Hconc.
  - split; simpl.
    + rewrite fired_lookup_other; [done|].
      intros [h t] [Hh _]%elem_of_map_to_list%map_lookup_filter_Some.
      by apply (Ht h).
    + intros h t [Hh _]%map_lookup_filter_Some. by apply (Ht h).
Qed.

Lemma untimed_run (evs : list Event) :
  forall st (analysisId : string) (cached : CacheEntry),
  untimed analysisId cached st ->
  Forall (fun ev => ~ issues analysisId ev /\ ~ concludes analysisId ev) evs ->
  untimed analysisId cached (run st evs).
Proof.
  induction evs as [|ev evs IH]; intros st analysisId cached Hu Hall; [exact Hu|].
  inversion Hall as [|? ? [Hi Hc] Hrest]; subst. simpl.
  apply IH; [by apply untimed_step | exact Hrest].
Qed.

(** C10: when a get-skin-conclusion call finds the session of [analysisId]
    and then fails (the model call throws, returns no text, or returns text
    that does not parse), the lookup has already cancelled the eviction
    timer and the failure deletes nothing. Whatever else happens while the
    model call is pending ([during]) and after the failure ([after]), as long
    as no conclusion call on [analysisId] succeeds (and phase 1 does not draw
    the same identifier again), the session is still cached with its
    description, no pending timer targets it, so no passage of time evicts
    it, and every further lookup of [analysisId] finds it and builds the
    prompt from the same description. *)
Theorem failed_conclusion_keeps_session_untimed st (analysisId : string)
  (mcqAnswers : McqAnswers) (language : string) (reply : ModelOutcome)
  (cached : CacheEntry) :
  wf st ->
  analysisCache st !! analysisId = Some cached ->
  failing reply ->
  timers (conclusionLookup st analysisId mcqAnswers language).1
    !! cleanupTimer cached = None /\
  forall during after : list Event,
    Forall (fun ev => ~ issues analysisId ev /\ ~ concludes analysisId ev) during ->
    Forall (fun ev => ~ issues analysisId ev /\ ~ concludes analysisId ev) after ->
    analysisCache
      (run (conclusionFinish
              (run (conclusionLookup st analysisId mcqAnswers language).1 during)
              analysisId reply).1 after)
      !! analysisId = Some cached /\
    (forall h t,
       timers
         (run (conclusionFinish
                 (run (conclusionLookup st analysisId mcqAnswers language).1 during)
                 analysisId reply).1 after)
         !! h = Some t -> target t <> analysisId) /\
    forall (mcqAnswers2 : McqAnswers) (language2 : string),
      (conclusionLookup
         (run (conclusionFinish
                 (run (conclusionLookup st analysisId mcqAnswers language).1 during)
                 analysisId reply).1 after)
         analysisId mcqAnswers2 language2).2
      = Hit (conclusionPrompt language2 (description cached) mcqAnswers2).
Proof.
  intros [HA _] Hc Hfail.
  assert ((conclusionLookup st analysisId mcqAnswers language).1
          = clearTimeout st (cleanupTimer cached)) as ->.
  { unfold conclusionLookup. by rewrite Hc. }
  assert (untimed analysisId cached (clearTimeout st (cleanupTimer cached))) as Hu.
  { split; simpl; [exact Hc|].
    intros h t [Hne Ht]%lookup_delete_Some Htarget. apply Hne.
    apply (HA h t cached Ht). by rewrite Htarget. }
  split; [apply lookup_delete_eq|].
  intros during after Hduring Hafter.
  rewrite failing_finish by exact Hfail.
  destruct (untimed_run after _ _ _ (untimed_run during _ _ _ Hu Hduring) Hafter)
    as [Hrun Htimers].
  split; [exact Hrun|]. split; [exact Htimers|].
  intros mcq2 lang2. unfold conclusionLookup. by rewrite Hrun.
Qed.

Lemma described_wf : wf Scenario.described.
Proof.
  apply (wf_run [Describe (Some "aGVsbG8=") (Some "image/png")
                   (Returns (Some "redness, no swelling")) "6f1c2d3e"] init wf_init).
  simpl. split; [|done]. split; [done|]. intros h t H. done.
Qed.

(** A witness of C10: the scenario session, a model call that returns no
    text, and fifteen minutes passing afterwards. *)
Lemma failed_conclusion_keeps_session_untimed_witness :
  timers (conclusionLookup Scenario.described "6f1c2d3e" (Some []) "en").1
    !! 0%nat = None /\
  analysisCache
    (run (conclusionFinish
            (run (conclusionLookup Scenario.described "6f1c2d3e" (Some []) "en").1 [])
            "6f1c2d3e" (Returns None)).1 [Elapse expiry])
    !! "6f1c2d3e"
  = Some {| description := "redness, no swelling"; cleanupTimer := 0 |}.
Proof.
  pose proof (failed_conclusion_keeps_session_untimed Scenario.described
                "6f1c2d3e" (Some []) "en" (Returns None)
                {| description := "redness, no swelling"; cleanupTimer := 0 |}
                described_wf eq_refl I) as (H1 & H2).
  split; [exact H1|].
  apply (H2 [] [Elapse expiry]).
  - apply Forall_nil_2.
  - apply Forall_cons. split; [|apply Forall_nil_2]. simpl. tauto.
Defined.

(** C4, evaluated on the code: phase 1 stores a session; one minute later a
    conclusion call finds it, cancels its timer and gets no text from the
    model; fifteen more minutes pass. The session was never consumed
    successfully and sixteen minutes have passed since its creation, yet a
    lookup still finds it, where the specification requires a miss. *)
Theorem failed_attempt_outlives_expiry :
  (expiry < now (run init Scenario.failedAttempt))%N /\
  (conclusionFinish
     (run init (take 3 Scenario.failedAttempt)) "6f1c2d3e" (Returns None)).2
  = fail (Error "AI model returned an empty response during the final analysis.") /\
  timers (run init Scenario.failedAttempt) = ∅ /\
  (conclusionLookup (run init Scenario.failedAttempt) "6f1c2d3e" (Some []) "en").2
  = Hit (conclusionPrompt "en" "redness, no swelling" (Some [])).
Proof. repeat split; vm_compute; reflexivity. Qed.

End Cache.

(** ** The offline queue *)
Section OfflineQueue.
Import Queue.

Implicit Types (q requests : list QueuedAnalysisRequest) (fetch : nat -> FetchOutcome).

Lemma requestId_inj (a b : N) : requestId a = requestId b -> a = b.
Proof.
  unfold requestId. intros H.
  apply (inj (String.app "req_")) in H. by apply (inj pretty) in H.
Qed.

(** Enqueueing appends: every pending entry stays, in its place. *)
Lemma queueAnalysisRequest_appends (ls : LocalStorage) (p : Payload) (idNow stampNow : N) :
  loadQueue (queueAnalysisRequest ls p idNow stampNow)
  = loadQueue ls ++ [ {| id := requestId idNow; payload := p; timestamp := stampNow |} ].
Proof. reflexivity. Qed.

(** Identifiers stay pairwise distinct as long as [Date.now()] returns a
    value that no pending entry was given. *)
Lemma queueAnalysisRequest_distinct (ls : LocalStorage) (p : Payload) (idNow stampNow : N) :
  NoDup (map id (loadQueue ls)) ->
  requestId idNow ∉ map id (loadQueue ls) ->
  NoDup (map id (loadQueue (queueAnalysisRequest ls p idNow stampNow))).
Proof.
  intros Hnd Hnew. rewrite queueAnalysisRequest_appends, map_app. simpl.
  apply NoDup_app. split; [exact Hnd|]. split.
  - intros x Hx [->|[]%elem_of_nil]%elem_of_cons. done.
  - apply NoDup_singleton.
Qed.

(** C8, evaluated on the code: two submissions enqueued while
    [Date.now()] returns the same millisecond give two distinct entries of
    the queue (their payloads differ) with one and the same [id], where the
    specification requires distinct ids. *)
Theorem same_millisecond_same_id :
  map id (loadQueue Scenario.enqueuedABC)
  = ["req_1700000000000"; "req_1700000000000"; "req_1700000000500"] /\
  map (fun r => base64ImageData (payload r)) (loadQueue Scenario.enqueuedABC)
  = ["QQ=="; "Qg=="; "Qw=="] /\
  forall (ls : LocalStorage) (pA pB : Payload) (t : N),
    map id (loadQueue (queueAnalysisRequest (queueAnalysisRequest ls pA t t) pB t t))
    = map id (loadQueue ls) ++ [requestId t; requestId t].
Proof.
  split; [reflexivity|]. split; [reflexivity|].
  intros ls pA pB t. rewrite !queueAnalysisRequest_appends, !map_app, <- app_assoc.
  reflexivity.
Qed.

Lemma filter_id_cons q (x : string) (resolved : list string) :
  List.filter (fun r => bool_decide (id r ∉ resolved))
    (List.filter (fun r => bool_decide (id r <> x)) q)
  = List.filter (fun r => bool_decide (id r ∉ x :: resolved)) q.
Proof.
  induction q as [|r q IH]; [done|]. cbn [List.filter].
  destruct (decide (id r = x)) as [He|Hne].
  - rewrite (bool_decide_false (id r <> x)) by tauto.
    rewrite (bool_decide_false (id r ∉ x :: resolved)); [exact IH|].
    intros H. apply H. rewrite He. by left.
  - rewrite (bool_decide_true (id r <> x)) by done. cbn [List.filter].
    rewrite IH.
    assert (bool_decide (id r ∉ resolved) = bool_decide (id r ∉ x :: resolved)) as ->;
      [|done].
    apply bool_decide_ext. rewrite not_elem_of_cons. tauto.
Qed.

Lemma filter_id_nil q :
  List.filter (fun r => bool_decide (id r ∉ ([] : list string))) q = q.
Proof.
  induction q as [|r q IH]; [done|]. cbn [List.filter].
  rewrite bool_decide_true by apply not_elem_of_nil. by f_equal.
Qed.

(** What the loop of a pass computes, for any queue: it posts every request
    of the array it iterates, in order; appends the results of the calls
    that resolved; and filters from [queue] the ids of those requests. *)
Lemma replay_spec requests : forall (i : nat) fetch (st : Pass),
  posted (replay requests i fetch st) = posted st ++ map payload requests /\
  results (replay requests i fetch st)
  = results st ++ resolvedResults requests i fetch /\
  queue (replay requests i fetch st)
  = List.filter (fun r => bool_decide (id r ∉ resolvedIds requests i fetch)) (queue st).
Proof.
  induction requests as [|request rest IH]; intros i fetch st.
  - cbn [replay map resolvedResults resolvedIds].
    rewrite !app_nil_r, filter_id_nil. done.
  - cbn [replay map resolvedResults resolvedIds]. unfold succeeded, push.
    destruct (fetch i) as [result|msg];
      match goal with
      | |- context [replay rest (S i) fetch ?s] =>
          destruct (IH (S i) fetch s) as (-> & -> & ->)
      end;
      cbn [posted results queue]; rewrite <- !app_assoc; repeat split.
    apply filter_id_cons.
Qed.

Lemma resolvedIds_subset requests : forall (i : nat) fetch (x : string),
  x ∈ resolvedIds requests i fetch -> x ∈ map id requests.
Proof.
  induction requests as [|r rest IH]; intros i fetch x; simpl; [done|].
  destruct (succeeded fetch i).
  - intros [->|Hin]%elem_of_cons; [by left | right; eauto].
  - intros Hin. right. eauto.
Qed.

(** With pairwise distinct ids, the filter keeps exactly the requests whose
    call was rejected. *)
Lemma filter_resolved_distinct requests : forall (i : nat) fetch,
  NoDup (map id requests) ->
  List.filter (fun r => bool_decide (id r ∉ resolvedIds requests i fetch)) requests
  = rejectedRequests requests i fetch.
Proof.
  induction requests as [|r rest IH]; intros i fetch Hnd; simpl; [done|].
  apply NoDup_cons in Hnd as [Hr Hnd].
  destruct (succeeded fetch i).
  - rewrite bool_decide_false by (intros H; apply H; by left).
    rewrite <- (IH (S i) fetch Hnd). apply filter_ext_in. intros x Hx.
    apply bool_decide_ext. rewrite not_elem_of_cons. split; [tauto|].
    intros Hnot. split; [|exact Hnot]. intros He. apply Hr. rewrite <- He.
    apply list_elem_of_In in Hx. by apply list_elem_of_fmap_2.
  - rewrite bool_decide_true.
    + by rewrite IH.
    + intros Hin%resolvedIds_subset. done.
Qed.

(** One pass over a queue with pairwise distinct ids: every entry is
    posted, in queue order, whatever the outcome of the calls before it; the
    results of the resolved calls are appended, in order, to the result
    store; and the queue written back holds exactly the entries whose call
    was rejected. *)
Lemma processAnalysisQueue_distinct (ls : LocalStorage) fetch :
  NoDup (map id (loadQueue ls)) ->
  calls (processAnalysisQueue ls fetch) = map payload (loadQueue ls) /\
  loadResults (storage (processAnalysisQueue ls fetch))
  = loadResults ls ++ resolvedResults (loadQueue ls) 0 fetch /\
  loadQueue (storage (processAnalysisQueue ls fetch))
  = rejectedRequests (loadQueue ls) 0 fetch.
Proof.
  intros Hnd. unfold processAnalysisQueue.
  destruct (loadQueue ls) as [|r q] eqn:Hq.
  - simpl. rewrite Hq. by rewrite app_nil_r.
  - cbn [List.length Nat.eqb].
    destruct (replay_spec (r :: q) 0 fetch
                {| queue := r :: q; results := loadResults ls; posted := [] |})
      as (Hp & Hr & Hf).
    cbn [storage calls]. rewrite Hp. split; [done|].
    unfold loadResults at 1, loadQueue at 1, setQueue, setResults.
    cbn [analysisResults analysisQueue default]. unfold Datatypes.id.
    rewrite Hr, Hf. cbn [results queue]. split; [done|].
    by apply filter_resolved_distinct.
Qed.

(** C2, evaluated on the code: [A] and [B] were enqueued within one
    millisecond and so share an id, [C] came later. In the pass the calls
    are made for [A], [B] and [C] in that order; those for [A] and [C]
    resolve and the one for [B] is rejected. The queue written back is
    empty: removing [A] by its id removed [B] too, where the specification
    requires the failed entry [B] to remain. *)
Theorem failed_entry_dropped_with_its_twin :
  map (fun p => base64ImageData p)
      (calls (processAnalysisQueue Scenario.enqueuedABC Scenario.onlyBFails))
  = ["QQ=="; "Qg=="; "Qw=="] /\
  analysisResults (storage (processAnalysisQueue Scenario.enqueuedABC Scenario.onlyBFails))
  = Some [Scenario.mildResult; Scenario.mildResult] /\
  analysisQueue (storage (processAnalysisQueue Scenario.enqueuedABC Scenario.onlyBFails))
  = Some [] /\
  rejectedRequests (loadQueue Scenario.enqueuedABC) 0 Scenario.onlyBFails
  = [ {| id := "req_1700000000000"; payload := Scenario.payloadOf "Qg==";
         timestamp := 1700000000000 |} ].
Proof. repeat split; vm_compute; reflexivity. Qed.

(** C9, refuted as stated: logging out removes a pending entry that was
    never posted. *)
Lemma logout_drops_pending_entry :
  loadQueue (queueAnalysisRequest emptyStorage (Scenario.payloadOf "QQ==")
               1700000000000 1700000000000)
  = [ {| id := "req_1700000000000"; payload := Scenario.payloadOf "QQ==";
         timestamp := 1700000000000 |} ] /\
  loadQueue (handleLogout
               (queueAnalysisRequest emptyStorage (Scenario.payloadOf "QQ==")
                  1700000000000 1700000000000))
  = [].
Proof. split; reflexivity. Qed.

(** C9, amended: of the operations that write the queue, enqueueing keeps
    every pending entry; a replay pass over entries with pairwise distinct
    ids writes back exactly the entries whose own call was rejected, so an
    entry leaves the queue in a pass only after its call resolved and any
    failure leaves it in place; logging out clears the whole queue. *)
Theorem queue_entry_lifecycle (ls : LocalStorage) fetch :
  NoDup (map id (loadQueue ls)) ->
  (forall (p : Payload) (idNow stampNow : N),
     loadQueue (queueAnalysisRequest ls p idNow stampNow)
     = loadQueue ls ++ [ {| id := requestId idNow; payload := p;
                            timestamp := stampNow |} ]) /\
  loadQueue (storage (processAnalysisQueue ls fetch))
  = rejectedRequests (loadQueue ls) 0 fetch /\
  analysisQueue (handleLogout ls) = None.
Proof.
  intros Hnd. split; [intros; apply queueAnalysisRequest_appends|].
  split; [|reflexivity].
  by apply processAnalysisQueue_distinct.
Qed.

(** A witness of C9: [A] and [C], enqueued half a second apart; the call
    for [A] resolves and the call for [C] is rejected, so [C] stays. *)
Lemma queue_entry_lifecycle_witness :
  loadQueue
    (storage
       (processAnalysisQueue
          (queueAnalysisRequest
             (queueAnalysisRequest emptyStorage (Scenario.payloadOf "QQ==")
                1700000000000 1700000000000)
             (Scenario.payloadOf "Qw==") 1700000000500 1700000000500)
          Scenario.onlyBFails))
  = [ {| id := "req_1700000000500"; payload := Scenario.payloadOf "Qw==";
         timestamp := 1700000000500 |} ].
Proof.
  pose proof (queue_entry_lifecycle
                (queueAnalysisRequest
                   (queueAnalysisRequest emptyStorage (Scenario.payloadOf "QQ==")
                      1700000000000 1700000000000)
                   (Scenario.payloadOf "Qw==") 1700000000500 1700000000500)
                Scenario.onlyBFails) as H.
  destruct H as (_ & H & _).
  - vm_compute. apply NoDup_cons. split.
    + intros [?|[]%elem_of_nil]%elem_of_cons. discriminate.
    + apply NoDup_singleton.
  - exact H.
Defined.

End OfflineQueue.

(** ** More on the sanitizer and the chat handler *)
Section Conversations.
Import Chat Conversation.

Lemma toSdk_id (h : IHistory) : toSdk h = h.
Proof.
  destruct h as [r ps]. unfold toSdk. simpl. f_equal.
  induction ps as [|[t] ps IH]; simpl; [done | by f_equal].
Qed.

Lemma map_toSdk (h : list IHistory) : map toSdk h = h.
Proof. induction h as [|a h IH]; simpl; [done|]. by rewrite toSdk_id, IH. Qed.

Lemma validHistory_sublist (stored : list IHistory) :
  validHistory stored `sublist_of` stored.
Proof.
  unfold validHistory. induction stored as [|a l IH]; simpl; [constructor|].
  destruct (hasText a); by constructor.
Qed.

Lemma dropLeadingModel_sublist (h : list IHistory) :
  dropLeadingModel h `sublist_of` h.
Proof.
  destruct h as [|a l]; simpl; [done|].
  case_bool_decide; [by constructor | done].
Qed.

Lemma alternateLoop_sublist rest : forall (san out : list IHistory),
  alternateLoop rest san = inr out -> out `sublist_of` san ++ rest.
Proof.
  induction rest as [|current rest IH]; intros san out; simpl.
  - intros [= <-]. by rewrite app_nil_r.
  - destruct (last san) as [prev|] eqn:Hlast; [|discriminate].
    apply last_Some in Hlast as [init ->]. unfold push, pop.
    case_bool_decide.
    + rewrite removelast_last. intros Hout%IH. etrans; [exact Hout|].
      rewrite <- !app_assoc. apply sublist_app; [done|]. simpl.
      by apply sublist_cons.
    + intros Hout%IH. etrans; [exact Hout|]. by rewrite <- !app_assoc.
Qed.

Lemma dropTrailingUser_sublist (h : list IHistory) :
  dropTrailingUser h `sublist_of` h.
Proof.
  unfold dropTrailingUser. destruct (last h) as [x|] eqn:Hlast; [|done].
  apply last_Some in Hlast as [l ->]. case_bool_decide; [|done].
  unfold pop. rewrite removelast_last. by apply sublist_inserts_r.
Qed.

(** X1 (sanitizer, for every stored history): the sanitizer returns a
    history (the [TypeError] of its loop cannot occur), whose roles strictly
    alternate and which is empty or ends with a model message. *)
Theorem sanitizer_alternates_and_ends_with_model (stored : list IHistory) :
  exists out,
    sanitizeHistory stored = inr out /\
    alternates out /\
    (out = [] \/ endsWithModel out).
Proof.
  destruct (sanitizeHistory_total stored) as [out Hout].
  exists out. split; [exact Hout|].
  by apply (sanitizeHistory_alternates_ends_model stored).
Qed.

(** X2 (sanitizer only trims): what the sanitizer hands to the model is a
    subsequence of the stored history: messages are dropped, never invented,
    altered or reordered. *)
Theorem sanitizer_only_trims (stored : list IHistory) :
  exists out,
    sanitizeHistory stored = inr out /\ out `sublist_of` stored.
Proof.
  destruct (sanitizeHistory_total stored) as [out Hout].
  exists out. split; [exact Hout|].
  revert Hout. unfold sanitizeHistory, alternate. rewrite map_toSdk.
  pose proof (dropLeadingModel_sublist (validHistory stored)) as Hdrop.
  destruct (dropLeadingModel (validHistory stored)) as [|first rest].
  - intros [= <-]. simpl. apply sublist_nil_l.
  - destruct (alternateLoop rest (push first [])) as [e|mid] eqn:Hloop;
      [discriminate|].
    intros [= <-]. apply alternateLoop_sublist in Hloop.
    etrans; [apply dropTrailingUser_sublist|].
    etrans; [exact Hloop|]. simpl.
    etrans; [exact Hdrop|]. apply validHistory_sublist.
Qed.

Lemma alternateLoop_alternating rest : forall (init : list IHistory) prev,
  alternates (prev :: rest) ->
  alternateLoop rest (init ++ [prev]) = inr (init ++ prev :: rest).
Proof.
  induction rest as [|current rest IH]; intros init prev Halt; simpl.
  - done.
  - rewrite last_snoc. destruct Halt as [Hne Halt].
    rewrite bool_decide_false by congruence.
    unfold push. rewrite (IH (init ++ [prev]) current Halt).
    by rewrite <- app_assoc.
Qed.

Lemma validHistory_all (h : list IHistory) :
  Forall (fun m => hasText m = true) h -> validHistory h = h.
Proof.
  unfold validHistory. induction 1 as [|a l Ha _ IH]; simpl; [done|].
  by rewrite Ha, IH.
Qed.

(** When every stored message has text, roles alternate and the history
    runs from a user message to a model message (or is empty), the sanitizer
    returns it unchanged. *)
Lemma sanitizer_keeps_well_formed (h : list IHistory) :
  wellFormed h -> sanitizeHistory h = inr h.
Proof.
  intros (Htext & Halt & Hends). unfold sanitizeHistory.
  rewrite map_toSdk, validHistory_all by done.
  destruct Hends as [-> | [Hstart Hend]]; [done|].
  destruct h as [|first rest]; [done|].
  unfold startsWithUser in Hstart. simpl in Hstart.
  unfold dropLeadingModel. rewrite bool_decide_false by (intros H; apply H; congruence).
  pose proof (alternateLoop_alternating rest [] first Halt) as Hloop.
  simpl in Hloop. unfold alternate, push. simpl app. rewrite Hloop.
  unfold dropTrailingUser. unfold endsWithModel in Hend.
  destruct (last (first :: rest)) as [x|]; [|done].
  simpl in Hend. rewrite bool_decide_false; [done|]. congruence.
Qed.

Lemma openSession_same (db : Db) (phone lang : string) (before : list IHistory) :
  db !! phone = Some {| language := lang; history := before |} ->
  openSession db phone lang = (db, {| language := lang; history := before |}).
Proof.
  intros Hs. unfold openSession. rewrite Hs. simpl.
  by rewrite bool_decide_false by (intros H; by apply H).
Qed.

(** X3 (isolation of users): whatever a POST /api/ai/chat request of one
    user does and however it ends, the stored session of every other user
    is what it was. *)
Theorem chat_leaves_other_users_alone (db : Db) (phone message lang : string)
  (reply : ModelOutcome) (other : string) :
  other <> phone ->
  db' (chat db phone message lang reply) !! other = db !! other.
Proof.
  intros Hne. unfold chat.
  assert ((openSession db phone lang).1 !! other = db !! other) as Hopen.
  { unfold openSession. destruct (db !! phone) as [s0|]; simpl.
    - case_bool_decide; simpl; [by rewrite lookup_insert_ne | done].
    - by rewrite lookup_insert_ne. }
  destruct (openSession db phone lang) as [db1 session]. simpl in Hopen.
  destruct (sanitizeHistory (history session)); simpl; [done|].
  destruct reply as [e|responseText]; simpl.
  - unfold save. by rewrite lookup_insert_ne.
  - destruct (negb (truthy_opt responseText)); simpl; unfold save;
      by rewrite !lookup_insert_ne.
Qed.

Lemma chat_leaves_other_users_alone_witness :
  db' (chat {[ "9876543210" := {| language := "en"; history := [] |} ]}
         "9123456780" "hello" "hi" (Returns (Some "{}"))) !! "9876543210"
  = Some {| language := "en"; history := [] |}.
Proof.
  rewrite (chat_leaves_other_users_alone _ "9123456780" "hello" "hi"
             (Returns (Some "{}")) "9876543210"); [reflexivity | discriminate].
Defined.

Lemma chat_answered_db (db : Db) (phone message lang reply : string) :
  reply <> "" ->
  db' (chat db phone message lang (Returns (Some reply))) !! phone
  = Some {| language := lang;
            history := history (openSession db phone lang).2
                       ++ [userTurn message; modelTurn reply] |}.
Proof.
  intros Hreply. unfold chat.
  assert (language (openSession db phone lang).2 = lang) as Hlang.
  { unfold openSession. destruct (db !! phone) as [s0|]; simpl; [|done].
    case_bool_decide as Hl; simpl; [done|].
    by destruct (decide (language s0 = lang)). }
  destruct (openSession db phone lang) as [db1 session]. simpl in *.
  destruct (sanitizeHistory_total (history session)) as [clean ->].
  assert (truthy reply = true) as Ht.
  { unfold truthy. by rewrite bool_decide_false. }
  simpl. rewrite Ht. simpl.
  unfold save. rewrite lookup_insert_eq. unfold withHistory, push. simpl.
  by rewrite Hlang, <- app_assoc.
Qed.

(** X4 (an answered turn): when the model returns text, the stored history
    grows by exactly the user message and the model reply, after the history
    the request started from (the stored one, or the empty one after a
    reset); the session carries the requested language, the reply is sent
    with status 200, and the model was given a history that is a subsequence
    of the one the request started from. *)
Theorem chat_answered_turn (db : Db) (phone message lang reply : string) :
  reply <> "" ->
  db' (chat db phone message lang (Returns (Some reply))) !! phone
  = Some {| language := lang;
            history := history (openSession db phone lang).2
                       ++ [userTurn message; modelTurn reply] |} /\
  response (chat db phone message lang (Returns (Some reply)))
  = {| httpStatus := 200; body := reply |} /\
  exists clean,
    sent (chat db phone message lang (Returns (Some reply))) = Some clean /\
    clean `sublist_of` history (openSession db phone lang).2.
Proof.
  intros Hreply. split; [by apply chat_answered_db|].
  unfold chat. destruct (openSession db phone lang) as [db1 session]. simpl.
  destruct (sanitizeHistory_total (history session)) as [clean Hclean].
  rewrite Hclean.
  assert (truthy reply = true) as Ht.
  { unfold truthy. by rewrite bool_decide_false. }
  simpl. rewrite Ht. simpl. split; [done|].
  exists clean. split; [done|].
  revert Hclean. unfold sanitizeHistory, alternate. rewrite map_toSdk.
  pose proof (dropLeadingModel_sublist (validHistory (history session))) as Hdrop.
  destruct (dropLeadingModel (validHistory (history session))) as [|first rest].
  - intros [= <-]. apply sublist_nil_l.
  - destruct (alternateLoop rest (push first [])) as [e|mid] eqn:Hloop;
      [discriminate|].
    intros [= <-]. apply alternateLoop_sublist in Hloop.
    etrans; [apply dropTrailingUser_sublist|].
    etrans; [exact Hloop|]. simpl.
    etrans; [exact Hdrop|]. apply validHistory_sublist.
Qed.

Lemma chat_answered_turn_witness :
  db' (chat ∅ "9876543210" "I have a rash" "en" (Returns (Some "Since when?")))
    !! "9876543210"
  = Some {| language := "en";
            history := [userTurn "I have a rash"; modelTurn "Since when?"] |}.
Proof.
  destruct (chat_answered_turn ∅ "9876543210" "I have a rash" "en" "Since when?")
    as [H _]; [discriminate|].
  exact H.
Defined.

(** X5 (a language switch discards the conversation before the model is
    called): when the stored session has another language than the request,
    the model gets an empty history, and whatever the outcome of the model
    call, the old history is gone: a thrown call leaves only the new user
    turn, a reply without text leaves nothing. *)
Theorem chat_language_switch_resets (db : Db) (phone message lang : string)
  (s0 : IChatSession) :
  db !! phone = Some s0 ->
  language s0 <> lang ->
  (forall reply, sent (chat db phone message lang reply) = Some []) /\
  (forall e, storedHistory (db' (chat db phone message lang (Throws e))) phone
             = [userTurn message]) /\
  storedHistory (db' (chat db phone message lang (Returns None))) phone = [].
Proof.
  intros Hs Hl.
  assert (openSession db phone lang
          = (<[phone := {| language := lang; history := [] |}]> db,
             {| language := lang; history := [] |})) as Hopen.
  { unfold openSession. rewrite Hs. by rewrite bool_decide_true. }
  unfold chat. rewrite Hopen. simpl. split; [|split].
  - intros [e|responseText]; simpl; [done|].
    by destruct (negb (truthy_opt responseText)).
  - intros e. by rewrite storedHistory_save.
  - by rewrite storedHistory_save.
Qed.

Lemma chat_language_switch_resets_witness :
  sent (chat {[ "9876543210" :=
                  {| language := "en";
                     history := [userTurn "I have a rash"; modelTurn "Since when?"] |} ]}
          "9876543210" "Start the conversation" "hi" (Throws (Error "fetch failed")))
  = Some [].
Proof.
  destruct (chat_language_switch_resets
              {[ "9876543210" :=
                   {| language := "en";
                      history := [userTurn "I have a rash"; modelTurn "Since when?"] |} ]}
              "9876543210" "Start the conversation" "hi"
              {| language := "en";
                 history := [userTurn "I have a rash"; modelTurn "Since when?"] |})
    as [H _]; [reflexivity | discriminate |].
  apply H.
Defined.

Lemma hasText_turn (r : Role) (s : string) :
  hasText {| role := r; parts := [ {| text := s |} ] |} = nonBlank s.
Proof. unfold hasText, nonBlank. simpl. by rewrite orb_false_r. Qed.

Lemma wellFormed_turn (h : list IHistory) (message reply : string) :
  wellFormed h -> nonBlank message = true -> nonBlank reply = true ->
  wellFormed (h ++ [userTurn message; modelTurn reply]).
Proof.
  intros (Htext & Halt & Hends) Hm Hr. split; [|split].
  - apply Forall_app. split; [done|].
    repeat constructor; unfold userTurn, modelTurn; by rewrite hasText_turn.
  - destruct Hends as [-> | [_ Hend]]; [simpl; split; [discriminate | done]|].
    unfold endsWithModel in Hend.
    destruct (last h) as [x|] eqn:Hlast; [|done]. simpl in Hend.
    apply last_Some in Hlast as [l ->].
    change [userTurn message; modelTurn reply]
      with ([userTurn message] ++ [modelTurn reply]).
    rewrite (app_assoc (l ++ [x])).
    apply alternates_snoc_other; [|discriminate].
    apply alternates_snoc_other; [done|]. simpl. congruence.
  - right. split.
    + destruct Hends as [-> | [Hstart _]]; [done|].
      unfold startsWithUser in *. by destruct h.
    + unfold endsWithModel.
      change [userTurn message; modelTurn reply]
        with ([userTurn message] ++ [modelTurn reply]).
      by rewrite app_assoc, last_snoc.
Qed.

Lemma wellFormed_nil : wellFormed [].
Proof. split; [constructor | split; [exact I | by left]]. Qed.

Lemma converse_spec turns : forall (db : Db) (phone lang : string) (before : list IHistory),
  db !! phone = Some {| language := lang; history := before |} ->
  wellFormed before ->
  Forall (fun turn => nonBlank turn.1 = true /\ nonBlank turn.2 = true) turns ->
  converse db phone lang turns !! phone
  = Some {| language := lang; history := before ++ transcript turns |} /\
  wellFormed (before ++ transcript turns).
Proof.
  induction turns as [|[message reply] turns IH]; intros db phone lang before Hs Hwf Hall.
  - simpl. by rewrite app_nil_r.
  - inversion Hall as [|? ? [Hm Hr] Hrest]; subst. simpl in Hm, Hr.
    assert (reply <> "") as Hne.
    { intros ->. discriminate. }
    pose proof (chat_answered_db db phone message lang reply Hne) as Hdb.
    rewrite (openSession_same db phone lang before Hs) in Hdb. simpl in Hdb.
    destruct (IH _ phone lang _ Hdb (wellFormed_turn _ _ _ Hwf Hm Hr) Hrest)
      as [Hfinal Hwf'].
    simpl. rewrite <- app_assoc in Hfinal, Hwf'. done.
Qed.

(** X6 (nothing is trimmed from a clean conversation): after any number of
    answered turns whose messages and replies are not blank, starting
    without a stored session, the stored history is the whole transcript,
    and the next request hands all of it to the model. *)
Theorem conversation_is_sent_in_full (db : Db) (phone lang : string)
  (turns : list (string * string)) :
  db !! phone = None ->
  Forall (fun turn => nonBlank turn.1 = true /\ nonBlank turn.2 = true) turns ->
  storedHistory (converse db phone lang turns) phone = transcript turns /\
  forall (message : string) (reply : ModelOutcome),
    sent (chat (converse db phone lang turns) phone message lang reply)
    = Some (transcript turns).
Proof.
  intros Hnone Hall.
  destruct turns as [|[m0 r0] turns].
  - simpl. unfold storedHistory. rewrite Hnone. split; [done|].
    intros message reply. unfold chat, openSession. rewrite Hnone. simpl.
    destruct reply as [e|responseText]; simpl; [done|].
    by destruct (negb (truthy_opt responseText)).
  - inversion Hall as [|? ? [Hm Hr] Hrest]; subst. simpl in Hm, Hr.
    assert (r0 <> "") as Hne by (intros ->; discriminate).
    pose proof (chat_answered_db db phone m0 lang r0 Hne) as Hdb.
    assert (history (openSession db phone lang).2 = []) as Hnil.
    { unfold openSession. by rewrite Hnone. }
    rewrite Hnil in Hdb. simpl in Hdb.
    destruct (converse_spec turns _ phone lang _ Hdb
                (wellFormed_turn [] m0 r0 wellFormed_nil Hm Hr) Hrest)
      as [Hfinal Hwf].
    cbn [converse transcript flat_map fst snd app] in *. split.
    + unfold storedHistory. by rewrite Hfinal.
    + intros message reply. unfold chat at 1.
      rewrite (openSession_same _ phone lang _ Hfinal). cbn [history].
      rewrite (sanitizer_keeps_well_formed _ Hwf).
      destruct reply as [e|responseText]; simpl; [done|].
      by destruct (negb (truthy_opt responseText)).
Qed.

Lemma conversation_is_sent_in_full_witness :
  storedHistory
    (converse ∅ "9876543210" "en"
       [("Start the conversation", "Where does it hurt?"); ("My arm", "Since when?")])
    "9876543210"
  = [userTurn "Start the conversation"; modelTurn "Where does it hurt?";
     userTurn "My arm"; modelTurn "Since when?"].
Proof.
  destruct (conversation_is_sent_in_full ∅ "9876543210" "en"
              [("Start the conversation", "Where does it hurt?");
               ("My arm", "Since when?")]) as [H _].
  - reflexivity.
  - repeat constructor.
  - exact H.
Defined.

Lemma alternateLoop_app (l1 l2 : list IHistory) : forall san,
  alternateLoop (l1 ++ l2) san
  = match alternateLoop l1 san with
    | inr mid => alternateLoop l2 mid
    | inl e => inl e
    end.
Proof.
  induction l1 as [|current l1 IH]; intros san; simpl; [done|].
  destruct (last san) as [prev|]; [|done].
  case_bool_decide; apply IH.
Qed.

Lemma last_cons_default {A} (l : list A) : forall (a d d' : A),
  List.last (a :: l) d = List.last (a :: l) d'.
Proof.
  induction l as [|b l IH]; intros a d d'; [done|].
  change (List.last (b :: l) d = List.last (b :: l) d'). apply IH.
Qed.

Lemma alternateLoop_users (ps : list string) : forall (init : list IHistory) (p : string),
  alternateLoop (map userTurn ps) (init ++ [userTurn p])
  = inr (init ++ [userTurn (List.last ps p)]).
Proof.
  induction ps as [|q ps IH]; intros init p; [done|].
  cbn [map alternateLoop]. rewrite last_snoc.
  rewrite bool_decide_true by done. unfold push, pop.
  rewrite removelast_last, IH.
  assert (List.last ps q = List.last (q :: ps) p) as ->; [|done].
  destruct ps as [|r ps]; [done|].
  exact (last_cons_default ps r q p).
Qed.

Lemma validHistory_users (pending : list string) :
  validHistory (map userTurn pending) = map userTurn (List.filter nonBlank pending).
Proof.
  unfold validHistory. induction pending as [|p ps IH]; simpl; [done|].
  unfold userTurn at 1. rewrite hasText_turn.
  destruct (nonBlank p); simpl; by rewrite IH.
Qed.

(** Unanswered user turns at the end of a well-formed history are all
    trimmed. *)
Lemma sanitize_pending_turns (before : list IHistory) (pending : list string) :
  wellFormed before ->
  sanitizeHistory (before ++ map userTurn pending) = inr before.
Proof.
  intros Hwf. pose proof Hwf as (Htext & Halt & Hends).
  unfold sanitizeHistory. rewrite map_toSdk.
  unfold validHistory. rewrite List.filter_app.
  fold (validHistory before). fold (validHistory (map userTurn pending)).
  rewrite validHistory_all by done. rewrite validHistory_users.
  destruct (List.filter nonBlank pending) as [|p ps].
  { simpl. rewrite app_nil_r.
    pose proof (sanitizer_keeps_well_formed before Hwf) as Hs.
    unfold sanitizeHistory in Hs. by rewrite map_toSdk, validHistory_all in Hs. }
  destruct Hends as [-> | [Hstart Hend]].
  - cbn [app map dropLeadingModel role userTurn].
    rewrite (bool_decide_false (user <> user)) by (intros H; by apply H).
    unfold alternate, push. simpl app.
    pose proof (alternateLoop_users ps [] p) as Hu. simpl app in Hu.
    rewrite Hu. reflexivity.
  - destruct before as [|first rest]; [done|].
    unfold startsWithUser in Hstart. simpl in Hstart.
    cbn [app dropLeadingModel].
    rewrite bool_decide_false by (intros H; apply H; congruence).
    unfold alternate, push. simpl app.
    change (rest ++ userTurn p :: map userTurn ps)
      with (rest ++ [userTurn p] ++ map userTurn ps).
    rewrite (app_assoc rest), alternateLoop_app.
    assert (alternates (first :: rest ++ [userTurn p])) as Halt'.
    { unfold endsWithModel in Hend.
      destruct (last (first :: rest)) as [x|] eqn:Hlast; [|done].
      simpl in Hend. apply last_Some in Hlast as [l Hl].
      rewrite app_comm_cons, Hl. apply alternates_snoc_other.
      - by rewrite <- Hl.
      - simpl. congruence. }
    pose proof (alternateLoop_alternating (rest ++ [userTurn p]) [] first Halt')
      as Hloop.
    simpl app in Hloop. rewrite Hloop.
    change (first :: rest ++ [userTurn p])
      with ((first :: rest) ++ [userTurn p]).
    rewrite alternateLoop_users.
    unfold dropTrailingUser. rewrite last_snoc.
    rewrite bool_decide_true by done. unfold pop.
    by rewrite removelast_last.
Qed.

Lemma chat_throws_db (db : Db) (phone message lang : string) (e : AIError)
  (h : list IHistory) :
  db !! phone = Some {| language := lang; history := h |} ->
  db' (chat db phone message lang (Throws e)) !! phone
  = Some {| language := lang; history := h ++ [userTurn message] |}.
Proof.
  intros Hs. unfold chat. rewrite (openSession_same db phone lang h Hs). simpl.
  destruct (sanitizeHistory_total h) as [clean ->]. simpl.
  unfold save. by rewrite lookup_insert_eq.
Qed.

Lemma failedSends_spec attempts : forall (db : Db) (phone lang : string) (h : list IHistory),
  db !! phone = Some {| language := lang; history := h |} ->
  failedSends db phone lang attempts !! phone
  = Some {| language := lang;
            history := h ++ map (fun a => userTurn a.1) attempts |}.
Proof.
  induction attempts as [|[m e] attempts IH]; intros db phone lang h Hs; simpl.
  - by rewrite app_nil_r.
  - rewrite (IH _ phone lang _ (chat_throws_db db phone m lang e h Hs)).
    by rewrite <- app_assoc.
Qed.

(** X7 (recovery after failed sends): when the model call throws, the user
    turn stays stored; after any number of such failures in a row on a
    well-formed history, the stored history is the old one followed by the
    unanswered user turns, and the next request hands the model exactly the
    old history: all the unanswered turns are trimmed. *)
Theorem failed_sends_are_trimmed (db : Db) (phone lang : string)
  (before : list IHistory) (attempts : list (string * AIError)) :
  db !! phone = Some {| language := lang; history := before |} ->
  wellFormed before ->
  storedHistory (failedSends db phone lang attempts) phone
  = before ++ map (fun a => userTurn a.1) attempts /\
  forall (message : string) (reply : ModelOutcome),
    sent (chat (failedSends db phone lang attempts) phone message lang reply)
    = Some before.
Proof.
  intros Hs Hwf.
  pose proof (failedSends_spec attempts db phone lang before Hs) as Hfinal.
  split.
  - unfold storedHistory. by rewrite Hfinal.
  - intros message reply. unfold chat.
    rewrite (openSession_same _ phone lang _ Hfinal). cbn [history].
    rewrite <- (map_map fst userTurn).
    rewrite (sanitize_pending_turns before _ Hwf).
    destruct reply as [e|responseText]; simpl; [done|].
    by destruct (negb (truthy_opt responseText)).
Qed.

Lemma failed_sends_are_trimmed_witness :
  sent (chat (failedSends
                {[ "9876543210" :=
                     {| language := "en";
                        history := [userTurn "I have a rash"; modelTurn "Since when?"] |} ]}
                "9876543210" "en"
                [("Two days", Error "fetch failed"); ("Two days", Error "quota exceeded")])
          "9876543210" "Two days" "en" (Returns (Some "{}")))
  = Some [userTurn "I have a rash"; modelTurn "Since when?"].
Proof.
  destruct (failed_sends_are_trimmed
              {[ "9876543210" :=
                   {| language := "en";
                      history := [userTurn "I have a rash"; modelTurn "Since when?"] |} ]}
              "9876543210" "en"
              [userTurn "I have a rash"; modelTurn "Since when?"]
              [("Two days", Error "fetch failed"); ("Two days", Error "quota exceeded")])
    as [_ H].
  - reflexivity.
  - split; [|split].
    + repeat constructor.
    + simpl. split; [discriminate | exact I].
    + right. split; reflexivity.
  - apply H.
Defined.

End Conversations.

(** ** More on the parsing of the model reply *)
Section ParserShape.
Import Skin.

Lemma conclusionLine_keeps_conclusion (result : Parsed) (line : string) :
  startsWith line "CONCLUSION:" = false ->
  p_conclusion (conclusionLine result line) = p_conclusion result.
Proof.
  intros H. unfold conclusionLine. rewrite H.
  repeat match goal with |- context [if ?b then _ else _] => destruct b end;
    reflexivity.
Qed.

Lemma conclusionLine_keeps_explanation (result : Parsed) (line : string) :
  startsWith line "EXPLANATION:" = false ->
  p_explanation (conclusionLine result line) = p_explanation result.
Proof.
  intros H. unfold conclusionLine. rewrite H.
  repeat match goal with |- context [if ?b then _ else _] => destruct b end;
    reflexivity.
Qed.

Lemma fold_keeps_conclusion (lines : list string) : forall result : Parsed,
  Forall (fun line => startsWith line "CONCLUSION:" = false) lines ->
  p_conclusion (fold_left conclusionLine lines result) = p_conclusion result.
Proof.
  induction lines as [|line lines IH]; intros result Hall; [done|].
  inversion Hall; subst. simpl.
  rewrite IH by done. by apply conclusionLine_keeps_conclusion.
Qed.

Lemma fold_keeps_explanation (lines : list string) : forall result : Parsed,
  Forall (fun line => startsWith line "EXPLANATION:" = false) lines ->
  p_explanation (fold_left conclusionLine lines result) = p_explanation result.
Proof.
  induction lines as [|line lines IH]; intros result Hall; [done|].
  inversion Hall; subst. simpl.
  rewrite IH by done. by apply conclusionLine_keeps_explanation.
Qed.

(** X8 (parser rejection): a model reply in which no line starts with the
    label CONCLUSION:, or none with the label EXPLANATION:, is rejected as
    unparsable by both endpoints; no partly filled result is returned. *)
Theorem reply_without_label_is_unparsable (responseText : string) :
  Forall (fun line => startsWith line "CONCLUSION:" = false)
         (split (trim responseText) nl)
  \/ Forall (fun line => startsWith line "EXPLANATION:" = false)
            (split (trim responseText) nl) ->
  conclusionParse responseText
  = inl (Error "Received an unparsable response from the AI.") /\
  analyzeParse responseText
  = inl (Error "Received an unparsable AI response.").
Proof.
  intros Hno. unfold conclusionParse, analyzeParse.
  change analyzeLine with conclusionLine.
  set (result := fold_left conclusionLine _ emptyParsed).
  destruct Hno as [Hno | Hno].
  - assert (p_conclusion result = None) as ->; [|done].
    unfold result. by rewrite fold_keeps_conclusion.
  - assert (p_explanation result = None) as ->.
    { unfold result. by rewrite fold_keeps_explanation. }
    by destruct (p_conclusion result).
Qed.

Lemma reply_without_label_is_unparsable_witness :
  conclusionParse ("This looks mild." +:+ nl +:+ "EXPLANATION: a small rash")
  = inl (Error "Received an unparsable response from the AI.").
Proof.
  destruct (reply_without_label_is_unparsable
              ("This looks mild." +:+ nl +:+ "EXPLANATION: a small rash"))
    as [H _].
  - left. vm_compute. repeat constructor.
  - exact H.
Defined.

Lemma filter_truthy_nonempty (l : list string) :
  Forall (fun t => t <> "") (List.filter truthy l).
Proof.
  induction l as [|x l IH]; simpl; [constructor|].
  destruct (truthy x) eqn:Hx; [|done].
  constructor; [|done]. intros ->. discriminate.
Qed.

Lemma conclusionLine_shape (result : Parsed) (line : string) :
  SkinFacts.parsedShape result -> SkinFacts.parsedShape (conclusionLine result line).
Proof.
  intros [Htips Hdoc]. unfold conclusionLine.
  repeat match goal with
         | |- context [if ?b then _ else _] => destruct b eqn:?
         end; try (split; assumption); split;
    cbn [p_selfCareTips p_doctorSuggestion]; try assumption.
  - intros tips [= <-]. apply filter_truthy_nonempty.
  - intros d [= <-].
    match goal with
    | H : _ && _ = true |- _ =>
        apply andb_prop in H as [Hnone _]; by apply bool_decide_eq_true in Hnone
    end.
Qed.

Lemma fold_shape (lines : list string) : forall result : Parsed,
  SkinFacts.parsedShape result ->
  SkinFacts.parsedShape (fold_left conclusionLine lines result).
Proof.
  induction lines as [|line lines IH]; intros result Hs; [done|].
  simpl. apply IH. by apply conclusionLine_shape.
Qed.

(** X9 (shape of a parsed result): whenever get-skin-conclusion parses a
    reply, the result carries all four members: the explanation is not
    empty, the list of tips is present and holds no empty tip, and the
    doctor suggestion is present and is never the word NONE in any letter
    case (it is the empty string when the model wrote NONE or nothing). *)
Theorem parsed_result_shape (responseText : string) (r : TriageResultData) :
  conclusionParse responseText = inr r ->
  explanation r <> "" /\
  (exists tips, selfCareTips r = Some tips /\ Forall (fun t => t <> "") tips) /\
  (exists d, doctorSuggestion r = Some d /\ toUpperCase d <> "NONE").
Proof.
  unfold conclusionParse.
  set (result := fold_left conclusionLine _ emptyParsed).
  assert (SkinFacts.parsedShape result) as [Htips Hdoc].
  { apply fold_shape. split; simpl; intros; discriminate. }
  destruct (p_conclusion result) as [c|]; [|discriminate].
  destruct (p_explanation result) as [e|]; [|discriminate].
  destruct (truthy e) eqn:He; [|discriminate].
  intros [= <-]. simpl. split; [|split].
  - intros ->. discriminate.
  - eexists. split; [reflexivity|].
    destruct (p_selfCareTips result) as [tips|]; simpl; [by apply Htips | constructor].
  - eexists. split; [reflexivity|].
    destruct (p_doctorSuggestion result) as [d|]; [|discriminate].
    destruct (truthy d); [by apply Hdoc | discriminate].
Qed.

Lemma parsed_result_shape_witness :
  explanation Scenario.mildResult <> "".
Proof.
  destruct (parsed_result_shape Scenario.mildReply Scenario.mildResult) as [H _];
    [reflexivity | exact H].
Defined.

End ParserShape.

(** ** More on the analysis session cache *)
Section CacheLifetime.
Import Skin SkinFacts.

Implicit Types (st : Server).

Lemma fail_status (e : AIError) :
  httpStatus (fail e) = 429%N \/ httpStatus (fail e) = 500%N.
Proof. unfold fail, handleAIError. destruct (isRateLimit e); simpl; auto. Qed.

(** X10 (outcomes of get-skin-conclusion): the call answers 200 with a
    result and then deletes exactly its own session, or it answers 404, 429
    or 500 and then leaves every cached session as it was. A reply the model
    did return is never reported as a rate limit. *)
Theorem conclusion_outcomes st (analysisId : string) (mcqAnswers : McqAnswers)
  (language : string) (reply : ModelOutcome) :
  ((exists r, (getSkinConclusion st analysisId mcqAnswers language reply).2
              = ok (Triage r)) /\
   analysisCache (getSkinConclusion st analysisId mcqAnswers language reply).1
   = delete analysisId (analysisCache st))
  \/
  (httpStatus (getSkinConclusion st analysisId mcqAnswers language reply).2
     ∈ [404%N; 429%N; 500%N] /\
   (forall text, reply = Returns text ->
      httpStatus (getSkinConclusion st analysisId mcqAnswers language reply).2
      <> 429%N) /\
   analysisCache (getSkinConclusion st analysisId mcqAnswers language reply).1
   = analysisCache st).
Proof.
  unfold getSkinConclusion, conclusionLookup.
  destruct (analysisCache st !! analysisId) as [cached|].
  - unfold conclusionFinish. destruct reply as [e|responseText].
    + right. cbn [fst snd]. split; [|split; [intros; discriminate | done]].
      destruct (fail_status e) as [-> | ->]; set_solver.
    + destruct (negb (truthy_opt responseText)).
      * right. cbn [fst snd]. split; [|split; [intros; discriminate | done]].
        vm_compute. set_solver.
      * destruct (conclusionParse _) as [e|r] eqn:Hp.
        -- right. cbn [fst snd]. split; [|split; [|done]].
           ++ destruct (fail_status e) as [-> | ->]; set_solver.
           ++ intros _ _. revert Hp. unfold conclusionParse.
              repeat case_match; intros [= <-]; discriminate.
        -- left. cbn [fst snd]. eauto.
  - right. cbn [fst snd]. split; [|split; [intros; discriminate | done]].
    vm_compute. set_solver.
Qed.

(** X11 (a completed analysis leaves nothing behind): when phase 1 stores a
    description under a fresh identifier and phase 2 then returns a result,
    the cache and the table of pending timers are exactly what they were
    before phase 1: the session and its timer are both gone. *)
Theorem two_phase_leaves_no_residue st (base64ImageData mimeType : option string)
  (language : string) (mcqAnswers : McqAnswers) (described analysed : ModelOutcome)
  (uuid : string) (r : TriageResultData) :
  wf st ->
  fresh st uuid ->
  (twoPhase st base64ImageData mimeType language mcqAnswers described analysed uuid).2
  = ok (Triage r) ->
  analysisCache
    (twoPhase st base64ImageData mimeType language mcqAnswers described analysed uuid).1
  = analysisCache st /\
  timers
    (twoPhase st base64ImageData mimeType language mcqAnswers described analysed uuid).1
  = timers st.
Proof.
  intros [_ HB] [Hnone _].
  assert (timers st !! nextTimer st = None) as Hh.
  { destruct (timers st !! nextTimer st) as [t|] eqn:Ht; [|done].
    assert (nextTimer st < nextTimer st)%nat by (apply HB; eauto). lia. }
  unfold twoPhase, describeSkinImage.
  destruct (negb (truthy_opt base64ImageData) || negb (truthy_opt mimeType));
    [discriminate|].
  destruct described as [e|descriptionText]; [discriminate|].
  destruct (negb (truthy_opt descriptionText)); [discriminate|].
  simpl. unfold getSkinConclusion, conclusionLookup, cacheDescription. simpl.
  rewrite lookup_insert_eq. simpl. unfold conclusionFinish.
  destruct analysed as [e|responseText]; [discriminate|].
  destruct (negb (truthy_opt responseText)); [discriminate|].
  destruct (conclusionParse _); [discriminate|].
  intros _. simpl. split.
  - by rewrite delete_insert_eq, delete_id.
  - by rewrite delete_insert_eq, delete_id.
Qed.

Lemma two_phase_leaves_no_residue_witness :
  analysisCache
    (twoPhase init (Some "aGVsbG8=") (Some "image/png") "en" (Some [])
       (Returns (Some "redness, no swelling")) (Returns (Some Scenario.mildReply))
       "6f1c2d3e").1
  = ∅.
Proof.
  destruct (two_phase_leaves_no_residue init (Some "aGVsbG8=") (Some "image/png")
              "en" (Some []) (Returns (Some "redness, no swelling"))
              (Returns (Some Scenario.mildReply)) "6f1c2d3e" Scenario.mildResult)
    as [H _].
  - apply wf_init.
  - split; [done|]. intros h t H. done.
  - reflexivity.
  - exact H.
Defined.

Lemma now_step st (ev : Event) :
  now (step st ev) = (now st + match ev with Elapse dt => dt | _ => 0 end)%N.
Proof.
  destruct ev as [b m reply uuid|id mcq lang|id reply|dt]; simpl.
  - unfold describeSkinImage.
    repeat case_match; simpl; lia.
  - unfold conclusionLookup. case_match; simpl; lia.
  - destruct (conclusionFinish_cache st id reply) as [-> | [_ ->]]; simpl; lia.
  - done.
Qed.

Lemma now_run (evs : list Event) : forall st,
  now (run st evs) = (now st + elapsed evs)%N.
Proof.
  induction evs as [|ev evs IH]; intros st; simpl; [lia|].
  change (fold_left step evs (step st ev)) with (run (step st ev) evs).
  rewrite IH, now_step. destruct ev; lia.
Qed.

Lemma awaiting_step st (uuid : string) (e : CacheEntry) (h : nat) (d : N) (ev : Event) :
  awaiting uuid e h d st ->
  ~ issues uuid ev -> ~ touches uuid ev ->
  awaiting uuid e h d (step st ev).
Proof.
  intros (Hh & Hothers & Htargets & Hstate) Hissue Htouch.
  destruct ev as [b m reply uuid'|id mcq lang|id reply|dt]; simpl in *.
  - unfold describeSkinImage.
    destruct (negb (truthy_opt b) || negb (truthy_opt m)); [done|].
    destruct reply as [err|descriptionText]; [done|].
    destruct (negb (truthy_opt descriptionText)); [done|].
    unfold awaiting. simpl. split; [lia|]. split; [|split].
    + intros id' e' [[<- <-] | [_ He']]%lookup_insert_Some Hne; simpl; [lia|].
      by apply (Hothers id').
    + intros h' t' [[<- <-] | [_ Ht']]%lookup_insert_Some; simpl; [done|].
      by apply Htargets.
    + rewrite lookup_insert_ne by done.
      rewrite lookup_insert_ne by lia. done.
  - unfold conclusionLookup.
    destruct (analysisCache st !! id) as [cached|] eqn:Hc; [|done].
    unfold awaiting. simpl. split; [done|]. split; [done|]. split.
    + intros h' t' [_ Ht']%lookup_delete_Some. by apply Htargets.
    + rewrite lookup_delete_ne by (by apply (Hothers id cached)). done.
  - destruct (conclusionFinish_cache st id reply) as [-> | [_ ->]]; [done|].
    unfold awaiting. simpl. split; [done|]. split; [|split; [done|]].
    + intros id' e' [_ He']%lookup_delete_Some. by apply Hothers.
    + rewrite lookup_delete_ne by done. done.
  - unfold awaiting, elapse. simpl. split; [done|]. split; [|split].
    + intros id' e' He'%fired_lookup_Some. by apply Hothers.
    + intros h' t' [Ht' _]%map_lookup_filter_Some. by apply Htargets.
    + destruct Hstate as [(Hnow & Hc & Ht) | (Hnow & Hc & Ht)].
      * destruct (decide (d <= now st + dt)%N) as [Hdue | Hnot].
        -- right. split; [done|]. split.
           ++ apply (fired_lookup_target _ _ (h, {| due := d; target := uuid |})).
              apply elem_of_map_to_list, map_lookup_filter_Some. by split.
           ++ apply map_lookup_filter_None. right. intros t' Ht'.
              rewrite Ht in Ht'. injection Ht' as <-. unfold isDue. simpl.
              by intros Hn.
        -- left. split; [lia|]. split.
           ++ rewrite fired_lookup_other; [done|].
              intros [h' t'] [Ht' Hd]%elem_of_map_to_list%map_lookup_filter_Some
                Htarget.
              simpl in *. assert (h' = h) as -> by (by apply (Htargets h' t')).
              rewrite Ht in Ht'. injection Ht' as <-. unfold isDue in Hd.
              simpl in Hd. lia.
           ++ apply map_lookup_filter_Some. split; [done|].
              unfold isDue. simpl. lia.
      * right. split; [lia|]. split; [by apply fired_lookup_None|].
        apply map_lookup_filter_None. left. done.
Qed.

Lemma awaiting_run (evs : list Event) :
  forall st (uuid : string) (e : CacheEntry) (h : nat) (d : N),
  awaiting uuid e h d st ->
  Forall (fun ev => ~ issues uuid ev /\ ~ touches uuid ev) evs ->
  awaiting uuid e h d (run st evs).
Proof.
  induction evs as [|ev evs IH]; intros st uuid e h d Ha Hall; [exact Ha|].
  inversion Hall as [|? ? [Hi Ht] Hrest]; subst. simpl.
  apply IH; [by apply awaiting_step | exact Hrest].
Qed.

Lemma handlesAllocated_step st (ev : Event) :
  handlesAllocated st -> handlesAllocated (step st ev).
Proof.
  intros Hall. destruct ev as [b m reply uuid|id mcq lang|id reply|dt]; simpl.
  - unfold describeSkinImage.
    destruct (negb (truthy_opt b) || negb (truthy_opt m)); [done|].
    destruct reply as [err|descriptionText]; [done|].
    destruct (negb (truthy_opt descriptionText)); [done|].
    unfold handlesAllocated. simpl.
    intros id e [[_ <-] | [_ He]]%lookup_insert_Some; simpl; [lia|].
    assert (cleanupTimer e < nextTimer st)%nat by (by apply (Hall id)). lia.
  - unfold conclusionLookup. by destruct (analysisCache st !! id).
  - destruct (conclusionFinish_cache st id reply) as [-> | [_ ->]]; [done|].
    unfold handlesAllocated. simpl.
    intros id' e [_ He]%lookup_delete_Some. by apply (Hall id').
  - unfold handlesAllocated, elapse. simpl.
    intros id e He%fired_lookup_Some. by apply (Hall id).
Qed.

(** The two invariants hold in every state the server reaches from its
    initial state while [crypto.randomUUID] returns fresh identifiers. *)
Lemma reachable_invariants (evs : list Event) : forall st,
  wf st -> handlesAllocated st -> freshTrace st evs ->
  wf (run st evs) /\ handlesAllocated (run st evs).
Proof.
  induction evs as [|ev evs IH]; intros st Hwf Hall Hfresh; [done|].
  destruct Hfresh as [Hev Hrest]. simpl. apply IH; [| |exact Hrest].
  - apply wf_step; [exact Hwf|]. by destruct ev.
  - by apply handlesAllocated_step.
Qed.

(** X12 (fifteen minutes, for a session nobody asks for): a session that
    phase 1 stored under a fresh identifier, and on which no conclusion call
    is made, is found by a lookup as long as less than fifteen minutes have
    passed since it was stored, and is gone from then on, whatever happens
    to other sessions in the meantime. *)
Theorem untouched_session_lives_fifteen_minutes st (uuid descriptionText : string)
  (evs : list Event) :
  wf st ->
  handlesAllocated st ->
  fresh st uuid ->
  Forall (fun ev => ~ issues uuid ev /\ ~ touches uuid ev) evs ->
  ((elapsed evs < expiry)%N ->
   analysisCache (run (cacheDescription st uuid descriptionText) evs) !! uuid
   = Some {| description := descriptionText; cleanupTimer := nextTimer st |}) /\
  ((expiry <= elapsed evs)%N ->
   analysisCache (run (cacheDescription st uuid descriptionText) evs) !! uuid
   = None).
Proof.
  intros [HA HB] Hall [Hnone Htimers] Hevs.
  assert (timers st !! nextTimer st = None) as Hh.
  { destruct (timers st !! nextTimer st) as [t|] eqn:Ht; [|done].
    assert (nextTimer st < nextTimer st)%nat by (apply HB; eauto). lia. }
  assert (awaiting uuid {| description := descriptionText; cleanupTimer := nextTimer st |}
            (nextTimer st) (now st + expiry)
            (cacheDescription st uuid descriptionText)) as Ha.
  { unfold awaiting, cacheDescription. simpl. split; [lia|]. split; [|split].
    - intros id' e' He' Hne. rewrite lookup_insert_ne in He' by done.
      assert (cleanupTimer e' < nextTimer st)%nat by (by apply (Hall id')). lia.
    - intros h' t' [[<- _] | [_ Ht']]%lookup_insert_Some Htarget; [done|].
      by destruct (Htimers h' t').
    - left. rewrite !lookup_insert_eq. split; [|done]. unfold expiry. lia. }
  pose proof (awaiting_run evs _ _ _ _ _ Ha Hevs) as (_ & _ & _ & Hstate).
  rewrite now_run in Hstate. simpl in Hstate.
  split; intros Ht; destruct Hstate as [(Hnow & Hc & _) | (Hnow & Hc & _)];
    try done; lia.
Qed.

Lemma untouched_session_lives_fifteen_minutes_witness :
  analysisCache
    (run (cacheDescription init "6f1c2d3e" "redness, no swelling")
       [Elapse 60000;
        Describe (Some "aGVsbG8=") (Some "image/png") (Returns (Some "a mole")) "0a1b2c3d";
        Elapse 840000]) !! "6f1c2d3e"
  = None.
Proof.
  destruct (untouched_session_lives_fifteen_minutes init "6f1c2d3e"
              "redness, no swelling"
              [Elapse 60000;
               Describe (Some "aGVsbG8=") (Some "image/png") (Returns (Some "a mole"))
                 "0a1b2c3d";
               Elapse 840000]) as [_ H].
  - apply wf_init.
  - intros id e H. done.
  - split; [done|]. intros h t H. done.
  - repeat constructor; simpl; try tauto; discriminate.
  - apply H. vm_compute. discriminate.
Defined.

End CacheLifetime.

(** ** More on the offline queue *)
Section QueuePasses.
Import Queue.

Implicit Types (q requests : list QueuedAnalysisRequest) (fetch : nat -> FetchOutcome).

Lemma filter_resolved_sublist requests : forall (i : nat) fetch (resolved : list string),
  (forall x, x ∈ resolvedIds requests i fetch -> x ∈ resolved) ->
  List.filter (fun r => bool_decide (id r ∉ resolved)) requests
  `sublist_of` rejectedRequests requests i fetch.
Proof.
  induction requests as [|r rest IH]; intros i fetch resolved Hsub; [done|].
  cbn [List.filter rejectedRequests resolvedIds] in *.
  destruct (succeeded fetch i).
  - rewrite bool_decide_false.
    + apply IH. intros x Hx. apply Hsub. by right.
    + intros H. apply H, Hsub. by left.
  - destruct (bool_decide (id r ∉ resolved)).
    + apply sublist_skip. by apply IH.
    + apply sublist_cons. by apply IH.
Qed.

Lemma kept_ids_not_resolved requests (resolved : list string) (r : QueuedAnalysisRequest) :
  r ∈ List.filter (fun r => bool_decide (id r ∉ resolved)) requests ->
  id r ∉ resolved.
Proof.
  intros [_ H]%list_elem_of_In%filter_In. by apply bool_decide_eq_true in H.
Qed.

Lemma pass_spec (ls : LocalStorage) fetch :
  calls (processAnalysisQueue ls fetch) = map payload (loadQueue ls) /\
  loadResults (storage (processAnalysisQueue ls fetch))
  = loadResults ls ++ resolvedResults (loadQueue ls) 0 fetch /\
  loadQueue (storage (processAnalysisQueue ls fetch))
  = List.filter (fun r => bool_decide (id r ∉ resolvedIds (loadQueue ls) 0 fetch))
      (loadQueue ls).
Proof.
  unfold processAnalysisQueue.
  destruct (loadQueue ls) as [|r0 q] eqn:Hq.
  - simpl. by rewrite Hq, app_nil_r.
  - cbn [List.length Nat.eqb].
    destruct (replay_spec (r0 :: q) 0 fetch
                {| queue := r0 :: q; results := loadResults ls; posted := [] |})
      as (Hp & Hr & Hf).
    cbn [storage calls]. rewrite Hp. split; [done|].
    assert (forall x y, loadResults (setQueue (setResults ls x) y) = x) as Hlr by done.
    assert (forall x y, loadQueue (setQueue (setResults ls x) y) = y) as Hlq by done.
    by rewrite Hlr, !Hlq, Hr, Hf.
Qed.

(** X13 (a pass over any queue, whatever the ids): every entry is posted
    exactly once, in queue order, also after failures; the results of the
    calls that resolved are appended to the result store in that order; and
    the queue written back is a subsequence of the entries whose call was
    rejected: an entry whose call resolved never stays, and no entry is
    added, altered or moved. *)
Theorem pass_over_any_queue (ls : LocalStorage) fetch :
  calls (processAnalysisQueue ls fetch) = map payload (loadQueue ls) /\
  loadResults (storage (processAnalysisQueue ls fetch))
  = loadResults ls ++ resolvedResults (loadQueue ls) 0 fetch /\
  loadQueue (storage (processAnalysisQueue ls fetch))
  `sublist_of` rejectedRequests (loadQueue ls) 0 fetch /\
  forall r, r ∈ loadQueue (storage (processAnalysisQueue ls fetch)) ->
            id r ∉ resolvedIds (loadQueue ls) 0 fetch.
Proof.
  destruct (pass_spec ls fetch) as (Hp & Hr & Hf).
  split; [exact Hp|]. split; [exact Hr|]. rewrite Hf. split.
  - by apply filter_resolved_sublist.
  - intros r. apply kept_ids_not_resolved.
Qed.

Lemma all_succeeded_rejects_none requests : forall (i : nat) fetch,
  (forall k, succeeded fetch k = true) ->
  rejectedRequests requests i fetch = [] /\
  length (resolvedResults requests i fetch) = length requests.
Proof.
  induction requests as [|r rest IH]; intros i fetch Hall; [done|].
  cbn [rejectedRequests resolvedResults]. pose proof (Hall i) as Hi.
  unfold succeeded in Hi. rewrite (Hall i).
  destruct (fetch i); [|discriminate].
  destruct (IH (S i) fetch Hall) as [-> Hlen]. simpl. by rewrite Hlen.
Qed.

Lemma none_succeeded_rejects_all requests : forall (i : nat) fetch,
  (forall k, succeeded fetch k = false) ->
  rejectedRequests requests i fetch = requests /\
  resolvedResults requests i fetch = [] /\
  resolvedIds requests i fetch = [].
Proof.
  induction requests as [|r rest IH]; intros i fetch Hall; [done|].
  cbn [rejectedRequests resolvedResults resolvedIds]. pose proof (Hall i) as Hi.
  unfold succeeded in Hi. rewrite (Hall i).
  destruct (fetch i); [discriminate|].
  by destruct (IH (S i) fetch Hall) as (-> & -> & ->).
Qed.

(** X14 (the two extreme passes): when every call of a pass resolves, the
    queue is left empty and the result store gains one result per entry;
    when every call is rejected (the server is still out of reach), the
    queue and the result store hold what they held before. In both cases
    this holds whatever the ids of the entries are. *)
Theorem pass_drains_or_keeps (ls : LocalStorage) fetch :
  ((forall k, succeeded fetch k = true) ->
   loadQueue (storage (processAnalysisQueue ls fetch)) = [] /\
   length (loadResults (storage (processAnalysisQueue ls fetch)))
   = (length (loadResults ls) + length (loadQueue ls))%nat) /\
  ((forall k, succeeded fetch k = false) ->
   loadQueue (storage (processAnalysisQueue ls fetch)) = loadQueue ls /\
   loadResults (storage (processAnalysisQueue ls fetch)) = loadResults ls).
Proof.
  destruct (pass_spec ls fetch) as (_ & Hres & Hf).
  split; intros Hall.
  - destruct (all_succeeded_rejects_none (loadQueue ls) 0 fetch Hall) as [Hrej Hlen].
    assert (loadQueue (storage (processAnalysisQueue ls fetch))
            `sublist_of` rejectedRequests (loadQueue ls) 0 fetch) as Hsub.
    { rewrite Hf. by apply filter_resolved_sublist. }
    rewrite Hrej in Hsub. apply sublist_nil_r in Hsub.
    split; [exact Hsub|]. by rewrite Hres, length_app, Hlen.
  - destruct (none_succeeded_rejects_all (loadQueue ls) 0 fetch Hall)
      as (Hrej & Hnone & Hids).
    rewrite Hres, Hnone, app_nil_r. split; [|done].
    rewrite Hf, Hids. apply filter_id_nil.
Qed.

Lemma pass_drains_or_keeps_witness :
  loadQueue (storage (processAnalysisQueue Scenario.enqueuedABC
                        (fun _ => Resolved Scenario.mildResult))) = [].
Proof.
  destruct (pass_drains_or_keeps Scenario.enqueuedABC
              (fun _ => Resolved Scenario.mildResult)) as [H _].
  destruct H as [H _]; [reflexivity | exact H].
Defined.

End QueuePasses.

(** ** The home screen and the client side of a call *)
Section ClientSide.
Import Queue Home Client.

Lemma viewResults_spec (k : nat) : forall (ls : LocalStorage) (st : HomeState),
  (viewResults k ls st).2 = take k (offlineResults st) /\
  offlineResults (viewResults k ls st).1.2 = drop k (offlineResults st) /\
  analysisQueue (viewResults k ls st).1.1 = analysisQueue ls /\
  (offlineResults st = loadResults ls ->
   loadResults (viewResults k ls st).1.1 = drop k (loadResults ls)).
Proof.
  induction k as [|k IH]; intros ls st; [done|].
  cbn [viewResults]. unfold handleViewResultClick.
  destruct (offlineResults st) as [|r rest] eqn:Hst.
  - destruct (IH ls st) as (H1 & H2 & H3 & H4). rewrite Hst in *.
    rewrite take_nil in H1. rewrite drop_nil in H2.
    split; [done|]. split; [done|]. split; [done|].
    intros Hsync. rewrite <- Hsync. rewrite (H4 Hsync), <- Hsync. by rewrite !drop_nil.
  - match goal with |- context [viewResults k ?l ?s] =>
      destruct (IH l s) as (H1 & H2 & H3 & H4);
      destruct (viewResults k l s) as [[ls2 st2] shown] eqn:Hv
    end.
    simpl in *. split; [by rewrite H1|]. split; [done|]. split; [done|].
    intros <-. simpl. by apply H4.
Qed.

(** X15 (results are shown oldest first): after a pass over a non-empty
    queue and the refresh it triggers, [k] clicks on "view result" show the
    first [k] results of the store, the ones stored before the pass and then
    the ones the pass added, in that order, once each; the store and the
    screen are left with the rest, and the queue is not touched. *)
Theorem results_are_viewed_oldest_first (ls : LocalStorage)
  (fetch : nat -> FetchOutcome) (st : HomeState) (k : nat) :
  loadQueue ls <> [] ->
  (viewResults k (storage (processAnalysisQueue ls fetch))
     (checkOfflineStatus (storage (processAnalysisQueue ls fetch)) st)).2
  = take k (loadResults ls ++ resolvedResults (loadQueue ls) 0 fetch) /\
  loadResults
    (viewResults k (storage (processAnalysisQueue ls fetch))
       (checkOfflineStatus (storage (processAnalysisQueue ls fetch)) st)).1.1
  = drop k (loadResults ls ++ resolvedResults (loadQueue ls) 0 fetch) /\
  loadQueue
    (viewResults k (storage (processAnalysisQueue ls fetch))
       (checkOfflineStatus (storage (processAnalysisQueue ls fetch)) st)).1.1
  = loadQueue (storage (processAnalysisQueue ls fetch)).
Proof.
  intros Hne.
  destruct (pass_spec ls fetch) as (_ & Hres & _).
  assert (exists rs, analysisResults (storage (processAnalysisQueue ls fetch)) = Some rs)
    as [rs Hrs].
  { unfold processAnalysisQueue. destruct (loadQueue ls); [done|].
    cbn. eauto. }
  assert (rs = loadResults ls ++ resolvedResults (loadQueue ls) 0 fetch) as Heq.
  { rewrite <- Hres. unfold loadResults at 1. by rewrite Hrs. }
  set (ls1 := storage (processAnalysisQueue ls fetch)) in *.
  assert (offlineResults (checkOfflineStatus ls1 st) = rs) as Hst.
  { unfold checkOfflineStatus. simpl. by rewrite Hrs. }
  destruct (viewResults_spec k ls1 (checkOfflineStatus ls1 st)) as (H1 & _ & H3 & H4).
  rewrite Hst in *. subst rs. split; [exact H1|]. split.
  - rewrite H4; [by rewrite Hres|]. by rewrite Hres.
  - unfold loadQueue. by rewrite H3.
Qed.

Lemma results_are_viewed_oldest_first_witness :
  (viewResults 1
     (storage (processAnalysisQueue Scenario.enqueuedABC Scenario.onlyBFails))
     (checkOfflineStatus
        (storage (processAnalysisQueue Scenario.enqueuedABC Scenario.onlyBFails))
        mounted)).2
  = [Scenario.mildResult].
Proof.
  destruct (results_are_viewed_oldest_first Scenario.enqueuedABC Scenario.onlyBFails
              mounted 1) as [H _]; [discriminate|].
  exact H.
Defined.

Lemma handleAIError_message (e : AIError) : snd (handleAIError e) <> "".
Proof.
  unfold handleAIError. destruct (isRateLimit e); simpl; [discriminate|].
  destruct (message e) as [m|]; [|discriminate].
  destruct (truthy m) eqn:Hm; [|discriminate].
  intros ->. discriminate.
Qed.

Lemma apiFetch_fail (e : AIError) :
  apiFetch messageOf (delivered (Skin.fail e)) = inl (snd (handleAIError e)).
Proof.
  pose proof (handleAIError_message e) as Hne.
  unfold delivered, Skin.fail, apiFetch, handleAIError in *.
  destruct (isRateLimit e); simpl in *; [done|].
  destruct (message e) as [m|]; [|done].
  destruct (truthy m) eqn:Hm; simpl; [by rewrite Hm | done].
Qed.

(** X16 (what the client sees of POST /api/ai/analyze-skin): when the
    request reaches the handler, [apiFetch] resolves with exactly the result
    the handler sent with status 200, and otherwise throws an error whose
    message is, word for word, the non-empty message of the handler's 400,
    429 or 500 response; when the network is down it throws the fixed
    message about the connection. *)
Theorem replay_call_outcomes (p : Payload) (described analysed : ModelOutcome) :
  ((exists r,
      Skin.analyzeSkin (Some (base64ImageData p)) (Some (mimeType p)) (language p)
        (mcqAnswers p) described analysed = Skin.ok (Skin.Triage r) /\
      replayCall true p described analysed = inr (Skin.Triage r))
   \/
   (exists m,
      Skin.body (Skin.analyzeSkin (Some (base64ImageData p)) (Some (mimeType p))
                   (language p) (mcqAnswers p) described analysed)
      = Skin.Message m /\
      m <> "" /\
      Skin.httpStatus (Skin.analyzeSkin (Some (base64ImageData p)) (Some (mimeType p))
                         (language p) (mcqAnswers p) described analysed)
        ∈ [400%N; 429%N; 500%N] /\
      replayCall true p described analysed = inl m)) /\
  replayCall false p described analysed
  = inl "Unable to connect to the server. Please check your internet connection and try again.".
Proof.
  split; [|reflexivity].
  unfold replayCall.
  assert (forall e, exists m,
            Skin.body (Skin.fail e) = Skin.Message m /\ m <> "" /\
            Skin.httpStatus (Skin.fail e) ∈ [400%N; 429%N; 500%N] /\
            apiFetch messageOf (delivered (Skin.fail e)) = inl m) as Hfail.
  { intros e. exists (snd (handleAIError e)). split; [done|].
    split; [apply handleAIError_message|]. split; [|apply apiFetch_fail].
    unfold Skin.fail, handleAIError. destruct (isRateLimit e); simpl; set_solver. }
  unfold Skin.analyzeSkin.
  destruct (negb (truthy_opt (Some (base64ImageData p)))
            || negb (truthy_opt (Some (mimeType p)))).
  { right. exists "Invalid image data provided.". simpl.
    repeat split; [discriminate | set_solver]. }
  destruct described as [e|descriptionText]; [right; apply Hfail|].
  destruct (negb (truthy_opt descriptionText)); [right; apply Hfail|].
  destruct analysed as [e|responseText]; [right; apply Hfail|].
  destruct (negb (truthy_opt responseText)); [right; apply Hfail|].
  destruct (Skin.analyzeParse _) as [e|r]; [right; apply Hfail|].
  left. exists r. done.
Qed.

Lemma rejected_stays (q : list QueuedAnalysisRequest) :
  forall (j i : nat) (fetch : nat -> FetchOutcome) (r : QueuedAnalysisRequest),
  q !! i = Some r -> succeeded fetch (j + i) = false ->
  r ∈ rejectedRequests q j fetch.
Proof.
  induction q as [|r0 q IH]; intros j i fetch r Hi Hfail; [done|].
  cbn [rejectedRequests]. destruct i as [|i].
  - injection Hi as ->. rewrite Nat.add_0_r in Hfail. rewrite Hfail. by left.
  - simpl in Hi. assert (r ∈ rejectedRequests q (S j) fetch) as Hin.
    { apply (IH (S j) i); [done|]. by rewrite <- Nat.add_succ_comm in Hfail. }
    destruct (succeeded fetch j); [done | by right].
Qed.

(** X17 (an entry the server refuses stays for ever): in a queue with
    pairwise distinct ids whose calls go through POST /api/ai/analyze-skin,
    an entry whose payload has an empty MIME type or no image data is
    refused with "Invalid image data provided." whatever the model would
    answer, so the pass keeps it in the queue; it is posted again on every
    later pass. *)
Theorem refused_payload_stays_queued (ls : LocalStorage)
  (fetch : nat -> FetchOutcome) (r : QueuedAnalysisRequest) :
  NoDup (map id (loadQueue ls)) ->
  servedBy (loadQueue ls) fetch ->
  r ∈ loadQueue ls ->
  mimeType (payload r) = "" \/ base64ImageData (payload r) = "" ->
  (forall described analysed,
     replayCall true (payload r) described analysed
     = inl "Invalid image data provided.") /\
  r ∈ loadQueue (storage (processAnalysisQueue ls fetch)) /\
  payload r ∈ calls (processAnalysisQueue ls fetch).
Proof.
  intros Hnd Hserved Hin Hbad.
  assert (forall described analysed,
            replayCall true (payload r) described analysed
            = inl "Invalid image data provided.") as Hcall.
  { intros described analysed. unfold replayCall, Skin.analyzeSkin. simpl.
    destruct Hbad as [-> | ->]; simpl; [by rewrite orb_true_r | done]. }
  split; [exact Hcall|].
  destruct (processAnalysisQueue_distinct ls fetch Hnd) as (Hcalls & _ & Hq).
  rewrite Hq, Hcalls. split.
  - apply list_elem_of_lookup in Hin as [i Hi].
    apply (rejected_stays _ 0 i); [done|]. simpl.
    destruct (Hserved i r Hi) as (online & described & analysed & Hout).
    unfold succeeded.
    assert (exists m, replayCall online (payload r) described analysed = inl m)
      as [m Hm].
    { destruct online; [rewrite Hcall; eauto | by eexists]. }
    rewrite Hm in Hout. simpl in Hout. by injection Hout as <-.
  - by apply list_elem_of_fmap_2.
Qed.

Lemma refused_payload_stays_queued_witness :
  {| id := "req_1700000000000";
     payload := {| base64ImageData := "QQ=="; mimeType := ""; language := "en";
                   mcqAnswers := Some [] |};
     timestamp := 1700000000000 |}
  ∈ loadQueue
      (storage
         (processAnalysisQueue
            (queueAnalysisRequest emptyStorage
               {| base64ImageData := "QQ=="; mimeType := ""; language := "en";
                  mcqAnswers := Some [] |} 1700000000000 1700000000000)
            (fun _ => Rejected "Invalid image data provided."))).
Proof.
  destruct (refused_payload_stays_queued
              (queueAnalysisRequest emptyStorage
                 {| base64ImageData := "QQ=="; mimeType := ""; language := "en";
                    mcqAnswers := Some [] |} 1700000000000 1700000000000)
              (fun _ => Rejected "Invalid image data provided.")
              {| id := "req_1700000000000";
                 payload := {| base64ImageData := "QQ=="; mimeType := "";
                               language := "en"; mcqAnswers := Some [] |};
                 timestamp := 1700000000000 |}) as (_ & H & _).
  - vm_compute. apply NoDup_singleton.
  - intros i r Hi. exists true, (Returns None), (Returns None).
    destruct i as [|i]; [|done]. vm_compute in Hi. injection Hi as <-.
    reflexivity.
  - vm_compute. by left.
  - by left.
  - exact H.
Defined.

(** X18 (choosing an answer): a click on an answer selects it, unless it is
    the selected one, which the click clears; no other question changes. A
    second click on the same answer restores the record exactly when the
    question was unanswered or held that answer before the first click;
    otherwise the answer that was selected before is lost. *)
Theorem handleMcqAnswer_toggles (prev : gmap string string)
  (questionText answer : string) :
  (forall other, other <> questionText ->
     handleMcqAnswer prev questionText answer !! other = prev !! other) /\
  (handleMcqAnswer prev questionText answer !! questionText
   = if bool_decide (prev !! questionText = Some answer) then None else Some answer) /\
  (handleMcqAnswer (handleMcqAnswer prev questionText answer) questionText answer
   = prev
   <-> prev !! questionText = None \/ prev !! questionText = Some answer).
Proof.
  unfold handleMcqAnswer. split; [|split].
  - intros other Hne. case_bool_decide.
    + by rewrite lookup_delete_ne.
    + by rewrite lookup_insert_ne.
  - case_bool_decide.
    + apply lookup_delete_eq.
    + apply lookup_insert_eq.
  - destruct (decide (prev !! questionText = Some answer)) as [Hsel | Hnot].
    + rewrite (bool_decide_true _ Hsel). rewrite lookup_delete_eq.
      rewrite bool_decide_false by discriminate.
      rewrite insert_delete_eq. split; [auto|]. intros _. by apply insert_id.
    + rewrite (bool_decide_false _ Hnot). rewrite lookup_insert_eq.
      rewrite bool_decide_true by done. rewrite delete_insert_eq. split.
      * intros Heq. left.
        rewrite <- Heq. apply lookup_delete_eq.
      * intros [Hnone | Hsel]; [by apply delete_id | done].
Qed.

End ClientSide.

(** ** OTP login *)
Section OtpLogin.
Import Accounts.

Lemma sendOtp_mock (users : Users) (userName phone : string) (now : N)
  (mockOtp : string) (sms : SmsOutcome) :
  userName <> "" -> tenDigits phone = true ->
  sendOtp false users (Some userName) phone now mockOtp sms
  = (<[phone := {| name := userName; otp := Some mockOtp;
                   otpExpires := Some (now + 300000)%N |}]> users,
     {| httpStatus := 200;
        body := OtpMessage "OTP sent successfully (DEV MODE)" mockOtp |}).
Proof.
  intros Hname Hphone. unfold sendOtp. rewrite Hphone.
  assert (truthy userName = true) as Ht by (unfold truthy; by rewrite bool_decide_false).
  simpl. rewrite Ht. simpl. rewrite insert_insert_eq.
  unfold upsertName. by destruct (users !! phone).
Qed.

(** X19 (what a mock OTP opens): in mock mode, after send-otp accepted a
    name and a ten-digit phone at time [now], the account carries that name
    at once, and verify-otp for that phone answers: 400 "Invalid OTP." for
    any other code, leaving the code in place; 400 "Expired OTP." for the
    right code later than five minutes after [now], leaving it in place;
    and otherwise 200 with a seven-day token for that phone and the name,
    clearing the code. *)
Theorem otp_verification_outcomes (users : Users) (userName phone : string)
  (now : N) (mockOtp : string) (sms : SmsOutcome)
  (otp' : option string) (now' : N) (check : CheckOutcome) :
  userName <> "" -> tenDigits phone = true ->
  (otp' <> Some mockOtp ->
   verifyOtp false (sendOtp false users (Some userName) phone now mockOtp sms).1
     phone otp' now' check
   = ((sendOtp false users (Some userName) phone now mockOtp sms).1,
      {| httpStatus := 400; body := Message "Invalid OTP." |})) /\
  (otp' = Some mockOtp -> (now + 300000 < now')%N ->
   verifyOtp false (sendOtp false users (Some userName) phone now mockOtp sms).1
     phone otp' now' check
   = ((sendOtp false users (Some userName) phone now mockOtp sms).1,
      {| httpStatus := 400; body := Message "Expired OTP." |})) /\
  (otp' = Some mockOtp -> (now' <= now + 300000)%N ->
   verifyOtp false (sendOtp false users (Some userName) phone now mockOtp sms).1
     phone otp' now' check
   = (<[phone := {| name := userName; otp := None; otpExpires := None |}]> users,
      {| httpStatus := 200;
         body := Login {| claims := {| Accounts.phone := phone; isGuest := false |};
                          expiresIn := "7d" |} userName phone |})).
Proof.
  intros Hname Hphone. rewrite (sendOtp_mock users userName phone now mockOtp sms) by done.
  cbn [fst]. unfold verifyOtp. rewrite lookup_insert_eq. simpl.
  split; [|split].
  - intros Hne. rewrite bool_decide_true; [done|]. congruence.
  - intros -> Hlate. rewrite bool_decide_false by (intros H; by apply H).
    assert ((now + 300000 <? now')%N = true) as -> by (by apply N.ltb_lt).
    done.
  - intros -> Hearly. rewrite bool_decide_false by (intros H; by apply H).
    assert ((now + 300000 <? now')%N = false) as -> by (apply N.ltb_ge; lia).
    unfold login. rewrite insert_insert_eq, lookup_insert_eq. done.
Qed.

Lemma otp_verification_outcomes_witness :
  httpStatus
    (verifyOtp false
       (sendOtp false ∅ (Some "Asha") "9876543210" 1700000000000 "482913" SmsSent).1
       "9876543210" (Some "482913") 1700000120000 (CheckStatus "")).2
  = 200%N.
Proof.
  destruct (otp_verification_outcomes ∅ "Asha" "9876543210" 1700000000000 "482913"
              SmsSent (Some "482913") 1700000120000 (CheckStatus ""))
    as (_ & _ & H); [discriminate | reflexivity |].
  rewrite H; [reflexivity | reflexivity | lia].
Defined.

(** X20 (a mock OTP works once): in mock mode, once verify-otp has answered
    200 for a phone, every further verify-otp for that phone answers 400 and
    changes nothing, whatever code is sent (also none) and whenever, until
    send-otp stores a new code. *)
Theorem otp_is_single_use (users : Users) (phone : string) (otp : option string)
  (now : N) (check : CheckOutcome) (users' : Users) (r : Response)
  (otp2 : option string) (now2 : N) (check2 : CheckOutcome) :
  verifyOtp false users phone otp now check = (users', r) ->
  httpStatus r = 200%N ->
  (verifyOtp false users' phone otp2 now2 check2).1 = users' /\
  httpStatus (verifyOtp false users' phone otp2 now2 check2).2 = 400%N.
Proof.
  unfold verifyOtp at 1.
  destruct (users !! phone) as [user|]; [|by intros [= <- <-]].
  case_bool_decide; [by intros [= <- <-]|].
  destruct (match otpExpires user with
            | Some expires => (expires <? now)%N
            | None => true
            end); [by intros [= <- <-]|].
  unfold login. rewrite lookup_insert_eq. intros [= <- <-] _.
  unfold verifyOtp. rewrite lookup_insert_eq. simpl.
  case_bool_decide; done.
Qed.

Lemma otp_is_single_use_witness :
  (verifyOtp false
     (verifyOtp false
        (sendOtp false ∅ (Some "Asha") "9876543210" 1700000000000 "482913" SmsSent).1
        "9876543210" (Some "482913") 1700000120000 (CheckStatus "")).1
     "9876543210" (Some "482913") 1700000130000 (CheckStatus "")).1
  = (verifyOtp false
       (sendOtp false ∅ (Some "Asha") "9876543210" 1700000000000 "482913" SmsSent).1
       "9876543210" (Some "482913") 1700000120000 (CheckStatus "")).1 /\
  httpStatus
    (verifyOtp false
       (verifyOtp false
          (sendOtp false ∅ (Some "Asha") "9876543210" 1700000000000 "482913" SmsSent).1
          "9876543210" (Some "482913") 1700000120000 (CheckStatus "")).1
       "9876543210" (Some "482913") 1700000130000 (CheckStatus "")).2
  = 400%N.
Proof.
  eapply otp_is_single_use.
  - apply surjective_pairing.
  - vm_compute. reflexivity.
Defined.

End OtpLogin.

(** ** Bookings *)
Section BookingOwnership.
Import Bookings.

Implicit Types (bookings : Collection) (matches : IBooking -> bool).

Lemma deleteOne_spec matches bookings :
  (deleteOne matches bookings = (bookings, 0%nat) /\
   Forall (fun b => matches b = false) bookings)
  \/
  (exists l1 b l2,
     bookings = l1 ++ b :: l2 /\
     Forall (fun b => matches b = false) l1 /\
     matches b = true /\
     deleteOne matches bookings = (l1 ++ l2, 1%nat)).
Proof.
  induction bookings as [|b rest IH]; [left; by split|].
  cbn [deleteOne]. destruct (matches b) eqn:Hb.
  - right. exists [], b, rest. by repeat split.
  - destruct IH as [[-> Hall] | (l1 & b' & l2 & -> & Hall & Hb' & ->)].
    + left. split; [done|]. by constructor.
    + right. exists (b :: l1), b', l2. repeat split; [by constructor | done].
Qed.

Lemma ofOthers_app caller (l1 l2 : Collection) :
  ofOthers caller (l1 ++ l2) = ofOthers caller l1 ++ ofOthers caller l2.
Proof. apply List.filter_app. Qed.

(** X21 (a user reaches only their own bookings): whatever a caller posts
    or deletes, the bookings of everybody else stay as they are, in order;
    a stored booking carries the caller's phone whatever the body says; the
    list a caller gets holds only bookings under the caller's phone; and a
    guest gets an empty list and changes nothing. *)
Theorem bookings_of_others_are_untouched (user : Accounts.Claims) bookings
  (body : IBooking) (saved : bool) (tokenParam : string) :
  ofOthers (Accounts.phone user) (postBooking user bookings body saved).1
  = ofOthers (Accounts.phone user) bookings /\
  ofOthers (Accounts.phone user) (deleteBooking user bookings tokenParam).1
  = ofOthers (Accounts.phone user) bookings /\
  Forall (fun b => userPhone b = Accounts.phone user)
         (listed (Accounts.phone user) bookings) /\
  (forall b, Bookings.body (postBooking user bookings body saved).2 = Saved b ->
             userPhone b = Accounts.phone user) /\
  (Accounts.isGuest user = true ->
   (postBooking user bookings body saved).1 = bookings /\
   (deleteBooking user bookings tokenParam).1 = bookings /\
   Bookings.body (getBookings user bookings) = Listing []).
Proof.
  split; [|split; [|split; [|split]]].
  - unfold postBooking. destruct (Accounts.isGuest user); [done|].
    destruct saved; [|done]. cbn [fst]. rewrite ofOthers_app.
    unfold ofOthers at 2. simpl. rewrite bool_decide_false by (intros H; by apply H).
    by rewrite app_nil_r.
  - unfold deleteBooking. destruct (Accounts.isGuest user); [done|].
    match goal with |- context [deleteOne ?m bookings] =>
      destruct (deleteOne_spec m bookings)
        as [[-> _] | (l1 & b & l2 & -> & _ & Hb & ->)]
    end; [done|].
    cbn [Nat.eqb fst]. rewrite !ofOthers_app. f_equal.
    unfold ofOthers. simpl.
    apply andb_prop in Hb as [_ Hb%bool_decide_eq_true].
    by rewrite bool_decide_false by (intros H; by apply H).
  - unfold listed, getBookings. simpl. apply Forall_forall.
    intros b [_ Hb]%list_elem_of_In%in_rev%filter_In.
    by apply bool_decide_eq_true in Hb.
  - intros b. unfold postBooking. destruct (Accounts.isGuest user); [discriminate|].
    destruct saved; [|discriminate]. by intros [= <-].
  - intros Hguest. unfold postBooking, deleteBooking, getBookings.
    by rewrite Hguest.
Qed.

Lemma bookings_of_others_are_untouched_witness :
  (postBooking Samples.guest [owned Samples.booking "9876543210"]
     Samples.booking true).1
  = [owned Samples.booking "9876543210"].
Proof.
  destruct (bookings_of_others_are_untouched Samples.guest
              [owned Samples.booking "9876543210"] Samples.booking true "TKN-4821")
    as (_ & _ & _ & _ & H).
  destruct H as [H _]; [reflexivity | exact H].
Defined.

Lemma deleteOne_none matches bookings :
  Forall (fun b => matches b = false) bookings ->
  deleteOne matches bookings = (bookings, 0%nat).
Proof.
  induction 1 as [|b rest Hb _ IH]; [done|].
  cbn [deleteOne]. by rewrite Hb, IH.
Qed.

Lemma deleteOne_last matches bookings (b : IBooking) :
  Forall (fun b => matches b = false) bookings -> matches b = true ->
  deleteOne matches (bookings ++ [b]) = (bookings, 1%nat).
Proof.
  induction 1 as [|b0 rest Hb0 _ IH]; intros Hb; simpl.
  - by rewrite Hb.
  - by rewrite Hb0, IH.
Qed.

(** X22 (booking, listing and cancelling fit together): for a registered
    caller who holds no booking with the token of the body, a cancellation
    of that token answers 404 and changes nothing; after the booking is
    saved it is the first of the caller's list, followed by the caller's
    earlier bookings, newest first; and cancelling its token then answers
    200 and gives back exactly the collection from before the booking. *)
Theorem booking_round_trip (caller : string) bookings (body : IBooking) :
  Forall (fun b => ~ (token b = token body /\ userPhone b = caller)) bookings ->
  deleteBooking {| Accounts.phone := caller; Accounts.isGuest := false |}
    bookings (token body)
  = (bookings, {| httpStatus := 404; body := Message "Booking not found." |}) /\
  listed caller
    (postBooking {| Accounts.phone := caller; Accounts.isGuest := false |}
       bookings body true).1
  = owned body caller :: listed caller bookings /\
  deleteBooking {| Accounts.phone := caller; Accounts.isGuest := false |}
    (postBooking {| Accounts.phone := caller; Accounts.isGuest := false |}
       bookings body true).1
    (token body)
  = (bookings,
     {| httpStatus := 200; body := Message "Booking cancelled successfully." |}).
Proof.
  intros Hnone.
  assert (Forall (fun b => bool_decide (token b = token body)
                           && bool_decide (userPhone b = caller) = false) bookings)
    as Hno.
  { eapply Forall_impl; [exact Hnone|]. intros b Hb. simpl in Hb.
    apply andb_false_iff.
    destruct (decide (token b = token body)) as [Ht|Ht].
    - right. apply bool_decide_eq_false. tauto.
    - left. by apply bool_decide_eq_false. }
  split; [|split].
  - unfold deleteBooking. simpl. by rewrite (deleteOne_none _ _ Hno).
  - unfold listed, postBooking, getBookings. simpl.
    rewrite List.filter_app, rev_app_distr. simpl.
    by rewrite bool_decide_true.
  - unfold deleteBooking, postBooking. simpl.
    rewrite (deleteOne_last _ _ _ Hno); [done|]. simpl.
    by rewrite !bool_decide_true.
Qed.

Lemma booking_round_trip_witness :
  listed "9876543210" (postBooking Samples.asha [] Samples.booking true).1
  = [owned Samples.booking "9876543210"].
Proof.
  destruct (booking_round_trip "9876543210" [] Samples.booking) as (_ & H & _);
    [constructor | exact H].
Defined.

(** X23 (a cancellation removes one booking of the caller): when DELETE
    /api/bookings/:token answers 200, the caller is registered and exactly
    one booking left the collection: the oldest one that carries the token
    under the caller's phone; all others keep their order. *)
Theorem cancellation_removes_one_own_booking (user : Accounts.Claims) bookings
  (tokenParam : string) bookings' (r : Response) :
  deleteBooking user bookings tokenParam = (bookings', r) ->
  httpStatus r = 200%N ->
  Accounts.isGuest user = false /\
  exists l1 b l2,
    bookings = l1 ++ b :: l2 /\ bookings' = l1 ++ l2 /\
    token b = tokenParam /\ userPhone b = Accounts.phone user /\
    Forall (fun b0 => ~ (token b0 = tokenParam /\ userPhone b0 = Accounts.phone user)) l1.
Proof.
  unfold deleteBooking. destruct (Accounts.isGuest user).
  { intros [= <- <-]. discriminate. }
  match goal with |- context [deleteOne ?m bookings] =>
    destruct (deleteOne_spec m bookings)
      as [[-> _] | (l1 & b & l2 & -> & Hl1 & Hb & ->)]
  end.
  { cbn [Nat.eqb]. intros [= <- <-]. discriminate. }
  cbn [Nat.eqb]. intros [= <- <-] _. split; [done|].
  exists l1, b, l2.
  apply andb_prop in Hb as [Ht%bool_decide_eq_true Hu%bool_decide_eq_true].
  repeat split; try done.
  eapply Forall_impl; [exact Hl1|]. intros b0 Hb0 [Ht0 Hu0]. simpl in Hb0.
  by rewrite !bool_decide_true in Hb0.
Qed.

Lemma cancellation_removes_one_own_booking_witness :
  Accounts.isGuest Samples.asha = false.
Proof.
  destruct (cancellation_removes_one_own_booking Samples.asha
              [owned Samples.booking "9876543210"] "TKN-4821" []
              {| httpStatus := 200; body := Message "Booking cancelled successfully." |})
    as [H _]; [reflexivity | reflexivity | exact H].
Defined.

End BookingOwnership.

(** ** The profile *)
Section ProfileUpdate.
Import Accounts Profile.


(** X25 (a change of phone moves the account): when the handler answers
    200 for a new phone that differs from the caller's, the user document is
    under the new phone with the new name and its pending OTP, and nothing
    is left under the old phone: no user, no chat session and no booking.
    The chat session the caller had is under the new phone; a caller
    without one gets the session, if any, that was already stored under the
    new phone. Every other user and every other session is untouched, no
    booking is added or dropped, and the reply carries a token for the new
    phone. A further valid update with the claims of the old token answers
    404. *)
Theorem phone_change_moves_the_account (user : Claims) (st : Store)
  (newName newPhone : string) (st' : Store) (r : Response) :
  isGuest user = false ->
  newPhone <> phone user ->
  updateProfile user st (Some newName) newPhone = (st', r) ->
  httpStatus r = 200%N ->
  (exists u, users st !! phone user = Some u /\
             users st' !! newPhone
             = Some {| name := newName; otp := otp u; otpExpires := otpExpires u |}) /\
  users st' !! phone user = None /\
  sessions st' !! phone user = None /\
  sessions st' !! newPhone
  = match sessions st !! phone user with
    | Some session => Some session
    | None => sessions st !! newPhone
    end /\
  Forall (fun b => Bookings.userPhone b <> phone user) (bookings st') /\
  length (bookings st') = length (bookings st) /\
  (forall other, other <> phone user -> other <> newPhone ->
     users st' !! other = users st !! other /\
     sessions st' !! other = sessions st !! other) /\
  body r = Profile newName newPhone
             (Some {| claims := {| phone := newPhone; isGuest := false |};
                      expiresIn := "7d" |}) /\
  forall name2 phone2,
    truthy_opt name2 = true -> tenDigits phone2 = true ->
    updateProfile user st' name2 phone2
    = (st', {| httpStatus := 404; body := Message "User not found." |}).
Proof.
  intros Hguest Hne. unfold updateProfile at 1. rewrite Hguest.
  destruct (negb (truthy_opt (Some newName)) || negb (tenDigits newPhone));
    [intros [= <- <-]; discriminate|].
  destruct (users st !! phone user) as [u|] eqn:Hu;
    [|intros [= <- <-]; discriminate].
  rewrite bool_decide_true by done.
  destruct (users st !! newPhone) as [other|] eqn:Hnew;
    [intros [= <- <-]; discriminate|].
  assert (Forall (fun b => Bookings.userPhone b <> phone user)
                 (map (reassign (phone user) newPhone) (bookings st))) as Hbookings.
  { apply Forall_forall. intros b [b0 [-> _]]%list_elem_of_fmap.
    unfold reassign. case_bool_decide; [simpl; congruence | done]. }
  unfold moveSession.
  destruct (sessions st !! phone user) as [session|] eqn:Hs.
  - destruct (sessions st !! newPhone) as [taken|] eqn:Ht;
      [intros [= <- <-]; discriminate|].
    intros [= <- <-] _. simpl.
    split; [exists u; split; [done | by rewrite lookup_insert_eq]|].
    split; [rewrite lookup_insert_ne by done; apply lookup_delete_eq|].
    split; [rewrite lookup_insert_ne by done; apply lookup_delete_eq|].
    split; [by rewrite lookup_insert_eq|].
    split; [done|]. split; [by rewrite length_map|]. split; [|split; [done|]].
    + intros other0 Ho1 Ho2.
      by rewrite !lookup_insert_ne, !lookup_delete_ne by done.
    + intros name2 phone2 Hn2 Hp2. unfold updateProfile. rewrite Hguest, Hn2, Hp2.
      simpl. rewrite lookup_insert_ne by done. by rewrite lookup_delete_eq.
  - intros [= <- <-] _. simpl.
    split; [exists u; split; [done | by rewrite lookup_insert_eq]|].
    split; [rewrite lookup_insert_ne by done; apply lookup_delete_eq|].
    split; [done|]. split; [done|].
    split; [done|]. split; [by rewrite length_map|]. split; [|split; [done|]].
    + intros other0 Ho1 Ho2.
      by rewrite !lookup_insert_ne, !lookup_delete_ne by done.
    + intros name2 phone2 Hn2 Hp2. unfold updateProfile. rewrite Hguest, Hn2, Hp2.
      simpl. rewrite lookup_insert_ne by done. by rewrite lookup_delete_eq.
Qed.

Lemma phone_change_moves_the_account_witness :
  sessions (updateProfile Samples.asha Samples.store (Some "Asha R") "9123456780").1
    !! "9123456780"
  = Some {| Chat.language := "en";
            Chat.history := [Chat.userTurn "I have a rash";
                             Chat.modelTurn "Since when?"] |}.
Proof.
  destruct (phone_change_moves_the_account Samples.asha Samples.store
              "Asha R" "9123456780"
              (updateProfile Samples.asha Samples.store (Some "Asha R") "9123456780").1
              (updateProfile Samples.asha Samples.store (Some "Asha R") "9123456780").2)
    as (_ & _ & _ & H & _).
  - reflexivity.
  - discriminate.
  - apply surjective_pairing.
  - vm_compute. reflexivity.
  - rewrite H. reflexivity.
Defined.

End ProfileUpdate.

(** ** Submissions *)
Section Submissions.
Import Queue Submit.

Lemma enqueueAll_spec (items : list Offline) : forall ls : LocalStorage,
  loadQueue (enqueueAll ls items) = loadQueue ls ++ map entryOf items /\
  loadResults (enqueueAll ls items) = loadResults ls.
Proof.
  induction items as [|o items IH]; intros ls; simpl.
  - by rewrite app_nil_r.
  - destruct (IH (queueAnalysisRequest ls (item o) (idNow o) (stampNow o)))
      as [Hq Hr].
    unfold enqueueAll in *. rewrite Hq, Hr.
    rewrite queueAnalysisRequest_appends, <- app_assoc. done.
Qed.

Lemma apiFetch_ok (b : Skin.Body) :
  Client.apiFetch Client.messageOf (Client.delivered (Skin.ok b)) = inr b.
Proof. reflexivity. Qed.

(** X26 (offline submissions made at distinct clock readings): when the
    submissions enqueued on an empty queue got pairwise distinct values of
    [Date.now()] for their ids, the ids are pairwise distinct, and a pass
    posts every payload in the order of submission, appends the results of
    the calls that resolved in that order, and leaves in the queue exactly
    the submissions whose call was rejected, in order. *)
Theorem offline_submissions_replay_in_order (ls : LocalStorage)
  (items : list Offline) (fetch : nat -> FetchOutcome) :
  loadQueue ls = [] ->
  NoDup (map idNow items) ->
  NoDup (map id (loadQueue (enqueueAll ls items))) /\
  calls (processAnalysisQueue (enqueueAll ls items) fetch) = map item items /\
  loadResults (storage (processAnalysisQueue (enqueueAll ls items) fetch))
  = loadResults ls ++ resolvedResults (map entryOf items) 0 fetch /\
  loadQueue (storage (processAnalysisQueue (enqueueAll ls items) fetch))
  = rejectedRequests (map entryOf items) 0 fetch.
Proof.
  intros Hempty Hnd.
  destruct (enqueueAll_spec items ls) as [Hq Hr].
  rewrite Hempty in Hq. simpl in Hq.
  assert (NoDup (map id (loadQueue (enqueueAll ls items)))) as Hids.
  { rewrite Hq, map_map. simpl.
    rewrite <- (map_map idNow requestId).
    assert (Inj (=) (=) requestId) as Hinj
      by (intros a b; apply requestId_inj).
    by apply (NoDup_fmap_2 requestId). }
  split; [exact Hids|].
  destruct (processAnalysisQueue_distinct (enqueueAll ls items) fetch Hids)
    as (Hcalls & Hres & Hqueue).
  rewrite Hcalls, Hres, Hqueue, Hq, Hr. rewrite map_map. done.
Qed.

Lemma offline_submissions_replay_in_order_witness :
  loadQueue
    (storage
       (processAnalysisQueue
          (enqueueAll emptyStorage
             [ {| item := Scenario.payloadOf "QQ=="; idNow := 1700000000000;
                  stampNow := 1700000000000 |};
               {| item := Scenario.payloadOf "Qg=="; idNow := 1700000000001;
                  stampNow := 1700000000001 |} ])
          Scenario.onlyBFails))
  = [ {| id := "req_1700000000001"; payload := Scenario.payloadOf "Qg==";
         timestamp := 1700000000001 |} ].
Proof.
  destruct (offline_submissions_replay_in_order emptyStorage
              [ {| item := Scenario.payloadOf "QQ=="; idNow := 1700000000000;
                   stampNow := 1700000000000 |};
                {| item := Scenario.payloadOf "Qg=="; idNow := 1700000000001;
                   stampNow := 1700000000001 |} ]
              Scenario.onlyBFails) as (_ & _ & _ & H).
  - reflexivity.
  - apply NoDup_cons. split; [|apply NoDup_singleton].
    intros [?|[]%elem_of_nil]%elem_of_cons. discriminate.
  - rewrite H. reflexivity.
Defined.

(** X27 (where a submission goes): offline, the submission never touches
    the server and appends one entry holding the image, the MIME type, the
    language and the chosen answers; online, nothing is ever queued,
    whatever fails: an unreachable server or a failing phase only shows an
    error; and when both requests get through, the screen receives a result
    exactly when the two-phase path of the server returns one, the same
    one. *)
Theorem submission_is_queued_only_offline (t : string -> string)
  (reached1 reached2 : bool)
  (ls : LocalStorage) (st : Skin.Server)
  (base64String mimeType language : string) (entries : list (string * string))
  (idNow stampNow : N) (described analysed : ModelOutcome) (uuid : string) :
  handleSubmitAnalysis t false reached1 reached2 ls st base64String mimeType language
    entries idNow stampNow described analysed uuid
  = (setQueue ls
       (loadQueue ls ++
        [ {| id := requestId idNow;
             payload := {| base64ImageData := base64String; Queue.mimeType := mimeType;
                           Queue.language := language; mcqAnswers := Some entries |};
             timestamp := stampNow |} ]),
     st, QueuedScreen) /\
  (handleSubmitAnalysis t true reached1 reached2 ls st base64String mimeType language
     entries idNow stampNow described analysed uuid).1.1 = ls /\
  forall r,
    (handleSubmitAnalysis t true true true ls st base64String mimeType language
       entries idNow stampNow described analysed uuid).2
    = Completed (Skin.Triage r)
    <-> (Skin.twoPhase st (Some base64String) (Some mimeType) language (Some entries)
           described analysed uuid).2 = Skin.ok (Skin.Triage r).
Proof.
  split; [reflexivity|]. split.
  - unfold handleSubmitAnalysis. cbn [negb].
    destruct (if reached1 then _ else _) as [st1 net1].
    destruct (Client.apiFetch _ net1) as [m|body1]; [done|].
    destruct (if reached2 then _ else _) as [st2 net2].
    by destruct (Client.apiFetch _ net2).
  - intros r. unfold handleSubmitAnalysis, Skin.twoPhase. cbn [negb].
    unfold Skin.describeSkinImage.
    destruct (negb (truthy_opt (Some base64String))
              || negb (truthy_opt (Some mimeType))); [done|].
    destruct described as [e|descriptionText]; cbv beta iota.
    { rewrite apiFetch_fail. done. }
    destruct (negb (truthy_opt descriptionText)); cbv beta iota.
    { rewrite apiFetch_fail. done. }
    rewrite apiFetch_ok.
    change (Skin.body (Skin.ok (Skin.AnalysisId uuid))) with (Skin.AnalysisId uuid).
    change (Skin.responseOk (Skin.ok (Skin.AnalysisId uuid))) with true.
    cbv beta iota.
    destruct (Skin.getSkinConclusion _ uuid _ _ _) as [st2 r2] eqn:Hconc.
    unfold Skin.getSkinConclusion in Hconc.
    destruct (Skin.conclusionLookup _ _ _ _) as [st1 [miss|prompt]] eqn:Hlook.
    { unfold Skin.conclusionLookup, Skin.cacheDescription in Hlook.
      cbn [Skin.analysisCache] in Hlook. rewrite lookup_insert_eq in Hlook.
      discriminate. }
    unfold Skin.conclusionFinish in Hconc.
    destruct analysed as [e|responseText].
    { injection Hconc as <- <-. rewrite apiFetch_fail. done. }
    destruct (negb (truthy_opt responseText)).
    { injection Hconc as <- <-. rewrite apiFetch_fail. done. }
    destruct (Skin.conclusionParse _) as [e|r'].
    { injection Hconc as <- <-. rewrite apiFetch_fail. done. }
    injection Hconc as <- <-. rewrite apiFetch_ok.
    cbn [snd]. unfold Skin.ok. split; [by intros [= ->] | by intros [= ->]].
Qed.

End Submissions.
